(** * Online-Image-Resizer: [src/utils/imageProcessor.ts]

    A shallow embedding of [processImage] and of the helpers it calls
    ([loadImage], [getCanvasBlob]), followed by the properties of the
    size-targeting search stated in the design document.

    - JavaScript numbers are IEEE-754 binary64 values.  They are modelled
      with the Standard Library's [spec_float] at precision 53 and
      maximal exponent 1024, so that [scale -= 0.05] rounds exactly as
      it does in the browser.
    - The browser (decoder, 2d context, rasteriser, encoder) is an
      interface, [Browser]; the program is written once over it.
    - The canvas is the only mutable object of the program; it is
      threaded through a small state-and-exception monad together with
      the trace of the calls made to the browser. *)

From Stdlib Require Import ZArith List Bool Lia Floats.SpecFloat.
From Stdlib Require Strings.Byte Strings.String Strings.Ascii DecimalString.
Import ListNotations.

Local Open Scope Z_scope.

(* ===================================================================== *)
(** ** JavaScript numbers *)
(* ===================================================================== *)

Module JS.

Definition prec : Z := 53.
Definition emax : Z := 1024.

(** The type [number]. *)
Definition number : Type := spec_float.

Definition mul : number -> number -> number := SFmul prec emax.
Definition div : number -> number -> number := SFdiv prec emax.
Definition add : number -> number -> number := SFadd prec emax.
Definition sub : number -> number -> number := SFsub prec emax.

(** [x < y], [x <= y], [x > y] on numbers; all three are [false] as
    soon as one side is NaN. *)
Definition lt (x y : number) : bool := SFltb x y.
Definition le (x y : number) : bool := SFleb x y.
Definition gt (x y : number) : bool := SFltb y x.

(** An integer seen as a number (exact below 2^53, rounded to nearest
    even above). *)
Definition of_Z (n : Z) : number := binary_normalize prec emax n 0 false.

(** The numeric literals of the program. *)
Definition lit_0 : number := S754_zero false.
Definition lit_1 : number := of_Z 1.
Definition lit_2 : number := of_Z 2.
Definition lit_1024 : number := of_Z 1024.
(** [0.05 = 0x1.999999999999ap-5], [0.1 = 0x1.999999999999ap-4],
    [1.2 = 0x1.3333333333333p+0]. *)
Definition lit_0_05 : number := S754_finite false 0x1999999999999a (-57).
Definition lit_0_1 : number := S754_finite false 0x1999999999999a (-56).
Definition lit_1_2 : number := S754_finite false 0x13333333333333 (-52).

Definition is_nan (x : number) : bool :=
  match x with S754_nan => true | _ => false end.

(** [Math.round]: the integral number closest to [x], ties towards
    +infinity.  A finite [x] is [(-1)^s * m * 2^e]; for [e < 0] the
    result is [floor ((+-m + 2^(-e-1)) / 2^(-e))], computed on
    integers so that no intermediate rounding takes place. *)
Definition Math_round (x : number) : number :=
  match x with
  | S754_finite s m e =>
      if 0 <=? e then x
      else
        let n := cond_Zopp s (Zpos m) in
        binary_normalize prec emax
          ((n + 2 ^ (- e - 1)) / 2 ^ (- e)) 0 s
  | _ => x
  end.

(** Conversion of a number to the IDL type [unsigned long], as done by
    the setters of [canvas.width] and [canvas.height]: NaN, zeros and
    infinities become 0, other values are truncated and reduced
    modulo 2^32.  (The program only stores products of an image
    dimension by a scale of at most 1, which are far below 2^31.) *)
Definition to_unsigned_long (x : number) : Z :=
  match x with
  | S754_finite s m e =>
      let n := cond_Zopp s (Zpos m) in
      (if 0 <=? e then n * 2 ^ e else Z.quot n (2 ^ (- e))) mod 2 ^ 32
  | _ => 0
  end.

End JS.

Declare Scope js_scope.
Delimit Scope js_scope with js.
Infix "*" := JS.mul : js_scope.
Infix "/" := JS.div : js_scope.
Infix "+" := JS.add : js_scope.
Infix "-" := JS.sub : js_scope.
Infix "<?" := JS.lt : js_scope.
Infix "<=?" := JS.le : js_scope.
Infix ">?" := JS.gt : js_scope.


Local Open Scope js_scope.

(* ===================================================================== *)
(** ** Data of the program *)
(* ===================================================================== *)

(** [type TargetFormat = 'image/jpeg' | 'image/png' | 'image/webp'] *)
Inductive TargetFormat : Type := image_jpeg | image_png | image_webp.

Definition is_png (f : TargetFormat) : bool :=
  match f with image_png => true | _ => false end.

(** A [File] and a [Blob] are sequences of bytes; [blob.size] is the
    number of bytes, as a number. *)
Definition File : Type := list Byte.byte.
Definition Blob : Type := list Byte.byte.

Definition size (b : Blob) : JS.number := JS.of_Z (Z.of_nat (length b)).

(** The value [processImage] resolves with. *)
Record Result : Type := { blob : Blob; finalSizeKB : JS.number }.

(** The ways in which the promise of [processImage] is rejected:
    - [DecodeError]: [loadImage] rejected ([reader.onerror] or
      [img.onerror]);
    - [ContextError]: 'Could not get canvas context.';
    - [EncodeError]: 'Canvas to Blob conversion failed.';
    - [UnreachableBudget]: 'Could not resize image below ...KB. ...'. *)
Inductive Error : Type :=
| DecodeError
| ContextError
| EncodeError
| UnreachableBudget (targetSizeKB : JS.number).

(** A promise is settled ([Resolved] or [Rejected]) or stays [Pending];
    the last case is the one of a loop that never ends. *)
Inductive Settled (A : Type) : Type :=
| Resolved (a : A)
| Rejected (e : Error)
| Pending.
Arguments Resolved {A} a.
Arguments Rejected {A} e.
Arguments Pending {A}.

(* ===================================================================== *)
(** ** The browser *)
(* ===================================================================== *)

(** What the program asks of the browser.  [Image] is a decoded
    [HTMLImageElement] with its intrinsic [width] and [height];
    [Bitmap] is the pixel content of a canvas. *)
Class Browser : Type := {
  Image : Type;
  width : Image -> Z;
  height : Image -> Z;
  Bitmap : Type;
  (** [FileReader.readAsDataURL] followed by the load of the data URL in
      an [Image]; [None] when either [onerror] fires. *)
  decode : File -> option Image;
  (** whether [canvas.getContext('2d')] is non-null *)
  context2d : bool;
  (** the bitmap of a canvas whose width or height was just assigned:
      transparent black at the new dimensions *)
  blank : Z -> Z -> Bitmap;
  (** [ctx.drawImage(img, 0, 0)] when the destination size is [None],
      [ctx.drawImage(img, 0, 0, dw, dh)] when it is [Some (dw, dh)]:
      the bitmap of a [w] by [h] canvas after the drawing *)
  paint : Image -> option (Z * Z) -> Z -> Z -> Bitmap -> Bitmap;
  (** [canvas.toBlob(callback, format, quality)]: the blob given to the
      callback, [None] for [null] *)
  toBlob : Z -> Z -> Bitmap -> TargetFormat -> JS.number -> option Blob
}.

Section Program.

Context {browser : Browser}.

(** The canvas element: [canvas.width], [canvas.height] and its
    bitmap. *)
Record Canvas : Type := { cwidth : Z; cheight : Z; bitmap : Bitmap }.

(** The calls made to the browser, in the order they are made. *)
Inductive Call : Type :=
| Decode (file : File)
| Draw (img : Image) (dst : option (Z * Z)) (onto : Canvas)
| Encode (cv : Canvas) (format : TargetFormat) (quality : JS.number).

Record World : Type := { canvas : Canvas; calls : list Call }.

Definition record (c : Call) (w : World) : World :=
  {| canvas := canvas w; calls := calls w ++ [c] |}.

(** *** Promises over the world *)

Definition Promise (A : Type) : Type := World -> Settled A * World.

Definition resolve {A} (a : A) : Promise A := fun w => (Resolved a, w).
Definition reject {A} (e : Error) : Promise A := fun w => (Rejected e, w).
Definition pending {A} : Promise A := fun w => (Pending, w).

(** [await p] followed by the rest of the function. *)
Definition await {A B} (p : Promise A) (k : A -> Promise B) : Promise B :=
  fun w =>
    match p w with
    | (Resolved a, w') => k a w'
    | (Rejected e, w') => (Rejected e, w')
    | (Pending, w') => (Pending, w')
    end.

Definition settled {A} (p : Promise A) (w : World) : Settled A := fst (p w).
Definition world_after {A} (p : Promise A) (w : World) : World := snd (p w).

End Program.

Notation "x <- p ;; k" := (await p (fun x => k))
  (at level 61, p at next level, right associativity).
Notation "p ;; k" := (await p (fun _ => k))
  (at level 61, right associativity).

Section ProcessImage.

Context {browser : Browser}.

(** *** Operations on the canvas *)

(** [document.createElement('canvas')]: 300 by 150, transparent. *)
Definition createCanvas : Promise unit :=
  fun w =>
    (Resolved tt,
     {| canvas := {| cwidth := 300; cheight := 150; bitmap := blank 300 150 |};
        calls := calls w |}).

(** [canvas.getContext('2d')] with the test [if (!ctx) throw ...]. *)
Definition getContext : Promise unit :=
  if context2d then resolve tt else reject ContextError.

(** [canvas.width = v]: the bitmap is cleared. *)
Definition set_width (v : Z) : Promise unit :=
  fun w =>
    let c := canvas w in
    (Resolved tt,
     {| canvas := {| cwidth := v; cheight := cheight c;
                     bitmap := blank v (cheight c) |};
        calls := calls w |}).

(** [canvas.height = v]: the bitmap is cleared. *)
Definition set_height (v : Z) : Promise unit :=
  fun w =>
    let c := canvas w in
    (Resolved tt,
     {| canvas := {| cwidth := cwidth c; cheight := v;
                     bitmap := blank (cwidth c) v |};
        calls := calls w |}).

Definition get_canvas : Promise Canvas := fun w => (Resolved (canvas w), w).

(** [ctx.drawImage(img, 0, 0)] and [ctx.drawImage(img, 0, 0, dw, dh)]. *)
Definition drawImage (img : Image) (dst : option (Z * Z)) : Promise unit :=
  fun w =>
    let c := canvas w in
    (Resolved tt,
     {| canvas := {| cwidth := cwidth c; cheight := cheight c;
                     bitmap := paint img dst (cwidth c) (cheight c) (bitmap c) |};
        calls := calls w ++ [Draw img dst c] |}).

(** *** [loadImage], lines 9-21 *)
Definition loadImage (file : File) : Promise Image :=
  fun w =>
    match decode file with
    | Some img => (Resolved img, record (Decode file) w)
    | None => (Rejected DecodeError, record (Decode file) w)
    end.

(** *** [getCanvasBlob], lines 30-44 *)
Definition getCanvasBlob (format : TargetFormat) (quality : JS.number)
  : Promise Blob :=
  fun w =>
    let c := canvas w in
    match toBlob (cwidth c) (cheight c) (bitmap c) format quality with
    | Some b => (Resolved b, record (Encode c format quality) w)
    | None => (Rejected EncodeError, record (Encode c format quality) w)
    end.

(** *** The loop of lines 79-85

    [fuel] bounds the number of turns; a loop that has none left
    while its condition still holds is [pending].  The loop resolves
    with the values of [currentBlob] and [scale] at its exit. *)
Fixpoint png_loop (fuel : nat) (img : Image) (targetSizeBytes : JS.number)
    (targetFormat : TargetFormat) (currentBlob : Blob) (scale : JS.number)
  : Promise (Blob * JS.number) :=
  if (size currentBlob >? targetSizeBytes) && (scale >? JS.lit_0_1) then
    match fuel with
    | O => pending
    | S fuel' =>
        let scale := scale - JS.lit_0_05 in
        set_width (JS.to_unsigned_long
                     (JS.Math_round (JS.of_Z (width img) * scale))) ;;
        set_height (JS.to_unsigned_long
                      (JS.Math_round (JS.of_Z (height img) * scale))) ;;
        c <- get_canvas ;;
        drawImage img (Some (cwidth c, cheight c)) ;;
        currentBlob <- getCanvasBlob targetFormat JS.lit_1 ;;
        png_loop fuel' img targetSizeBytes targetFormat currentBlob scale
    end
  else resolve (currentBlob, scale).

(** *** The loop of lines 95-105

    [n] is the number of turns left, [10 - i]. *)
Fixpoint quality_loop (n : nat) (targetSizeBytes : JS.number)
    (targetFormat : TargetFormat) (minQuality maxQuality : JS.number)
    (bestBlob : option Blob)
  : Promise (JS.number * JS.number * option Blob) :=
  match n with
  | O => resolve (minQuality, maxQuality, bestBlob)
  | S n' =>
      let quality := (minQuality + maxQuality) / JS.lit_2 in
      currentBlob <- getCanvasBlob targetFormat quality ;;
      if size currentBlob <=? targetSizeBytes then
        quality_loop n' targetSizeBytes targetFormat
          quality maxQuality (Some currentBlob)
      else
        quality_loop n' targetSizeBytes targetFormat
          minQuality quality bestBlob
  end.

(** *** [processImage], lines 54-118 *)
Definition processImage (fuel : nat) (file : File)
    (targetSizeKB : JS.number) (targetFormat : TargetFormat)
  : Promise Result :=
  let targetSizeBytes := targetSizeKB * JS.lit_1024 in
  img <- loadImage file ;;
  createCanvas ;;
  getContext ;;
  set_width (width img) ;;
  set_height (height img) ;;
  drawImage img None ;;
  if is_png targetFormat then
    currentBlob <- getCanvasBlob targetFormat JS.lit_1 ;;
    r <- png_loop fuel img targetSizeBytes targetFormat currentBlob JS.lit_1 ;;
    let currentBlob := fst r in
    resolve {| blob := currentBlob;
               finalSizeKB := size currentBlob / JS.lit_1024 |}
  else
    st <- quality_loop 10 targetSizeBytes targetFormat JS.lit_0 JS.lit_1 None ;;
    let '(minQuality, _, bestBlob) := st in
    match bestBlob with
    | Some bestBlob =>
        resolve {| blob := bestBlob;
                   finalSizeKB := size bestBlob / JS.lit_1024 |}
    | None =>
        fallbackBlob <- getCanvasBlob targetFormat minQuality ;;
        if size fallbackBlob >? targetSizeBytes * JS.lit_1_2 then
          reject (UnreachableBudget targetSizeKB)
        else
          resolve {| blob := fallbackBlob;
                     finalSizeKB := size fallbackBlob / JS.lit_1024 |}
    end.

End ProcessImage.

(* ===================================================================== *)
(** ** The search as the design document words it (section 4.1) *)
(* ===================================================================== *)

Module Design.

Section Strategies.

(** the byte budget *)
Variable targetBytes : JS.number.

(** **** A. Lossy quality search

    [encode quality] is the encoder capability at the source's
    intrinsic dimensions; [None] is an [EncodeError]. *)
Variable encode : JS.number -> option Blob.

(** [minQuality], [maxQuality], [best], and the qualities encoded so
    far, oldest first. *)
Record Lossy : Type := {
  minQuality : JS.number;
  maxQuality : JS.number;
  best : option Blob;
  tried : list JS.number
}.

(** "Maintain minQuality = 0, maxQuality = 1, and best = None." *)
Definition lossy_start : Lossy :=
  {| minQuality := JS.lit_0; maxQuality := JS.lit_1;
     best := None; tried := [] |}.

(** "quality = (minQuality + maxQuality) / 2; encode at that
    quality; if resulting size <= target, record it as best and
    raise the floor; otherwise lower the ceiling." *)
Definition lossy_iteration (s : Lossy) : option Lossy :=
  let quality := (minQuality s + maxQuality s) / JS.lit_2 in
  match encode quality with
  | None => None
  | Some attempt =>
      Some (if size attempt <=? targetBytes then
              {| minQuality := quality; maxQuality := maxQuality s;
                 best := Some attempt; tried := tried s ++ [quality] |}
            else
              {| minQuality := minQuality s; maxQuality := quality;
                 best := best s; tried := tried s ++ [quality] |})
  end.

(** "Run a fixed number of iterations." *)
Fixpoint lossy_search (iterations : nat) (s : Lossy) : option Lossy :=
  match iterations with
  | O => Some s
  | S n =>
      match lossy_iteration s with
      | None => None
      | Some s' => lossy_search n s'
      end
  end.

(** **** B. Lossless dimension search

    [encode_at scale] resamples the source image to
    [round (originalWidth * scale)] by
    [round (originalHeight * scale)] and encodes the outcome. *)
Variable encode_at : JS.number -> option Blob.

(** "While encoded size > targetBytes AND scale > 0.1: decrement
    scale by 0.05; recompute dimensions; resample; re-encode;
    repeat."  The answer is the last attempt with its scale.  The
    outer [option] is [None] when [turns] turns were not enough, the
    inner one when the encoder failed. *)
Fixpoint lossless_search (turns : nat) (current : Blob) (scale : JS.number)
  : option (option (Blob * JS.number)) :=
  if (size current >? targetBytes) && (scale >? JS.lit_0_1) then
    match turns with
    | O => None
    | S n =>
        let scale := scale - JS.lit_0_05 in
        match encode_at scale with
        | None => Some None
        | Some attempt => lossless_search n attempt scale
        end
    end
  else Some (Some (current, scale)).

End Strategies.

End Design.

(* ===================================================================== *)
(** ** Vocabulary of the statements *)
(* ===================================================================== *)

(** The scale after [k] executions of [scale -= 0.05], from [1.0]. *)
Definition scale_seq (k : nat) : JS.number :=
  Nat.iter k (fun scale => scale - JS.lit_0_05) JS.lit_1.

(** [Math.round(v * scale)] once stored in [canvas.width] or
    [canvas.height] (lines 81 and 82). *)
Definition scaled (v : Z) (scale : JS.number) : Z :=
  JS.to_unsigned_long (JS.Math_round (JS.of_Z v * scale)).

(** One turn of the binary search on the pair (minQuality, maxQuality). *)
Definition bisect (fits : bool) (s : JS.number * JS.number)
  : JS.number * JS.number :=
  let quality := (fst s + snd s) / JS.lit_2 in
  if fits then (quality, snd s) else (fst s, quality).

(** The pairs (minQuality, maxQuality) that [k] turns can lead to. *)
Fixpoint reach (k : nat) : list (JS.number * JS.number) :=
  match k with
  | O => [(JS.lit_0, JS.lit_1)]
  | S k' => flat_map (fun s => [bisect true s; bisect false s]) (reach k')
  end.

(** [0 <= minQuality < maxQuality <= 1] *)
Definition bracket (s : JS.number * JS.number) : bool :=
  (JS.lit_0 <=? fst s) && (fst s <? snd s) && (snd s <=? JS.lit_1).

(** [0 < quality < 1] *)
Definition strictly_inside (quality : JS.number) : bool :=
  (JS.lit_0 <? quality) && (quality <? JS.lit_1).

Definition nonneg (mrs : shr_record) : Prop := (0 <= shr_m mrs)%Z.

Section Vocabulary.

Context {browser : Browser}.

(** The canvas after lines 69-71: intrinsic dimensions, the image
    drawn on the cleared bitmap. *)
Definition cleared (w h : Z) : Canvas :=
  {| cwidth := w; cheight := h; bitmap := blank w h |}.

Definition rendered (img : Image) (dst : option (Z * Z)) (w h : Z) : Canvas :=
  {| cwidth := w; cheight := h; bitmap := paint img dst w h (blank w h) |}.

Definition source_canvas (img : Image) : Canvas :=
  rendered img None (width img) (height img).

(** The canvas after lines 81-83 for a given scale. *)
Definition resampled_canvas (img : Image) (scale : JS.number) : Canvas :=
  let w := scaled (width img) scale in
  let h := scaled (height img) scale in
  rendered img (Some (w, h)) w h.

(** What the encoder answers for a canvas. *)
Definition encode_canvas (c : Canvas) (format : TargetFormat)
    (quality : JS.number) : option Blob :=
  toBlob (cwidth c) (cheight c) (bitmap c) format quality.

Definition is_encode (c : Call) : bool :=
  match c with Encode _ _ _ => true | _ => false end.

(** The number of encoder calls in a trace. *)
Definition encodes (l : list Call) : nat := length (filter is_encode l).

(** An encoder call that produced a blob over the budget. *)
Definition over_budget (targetSizeBytes : JS.number) (c : Call) : Prop :=
  match c with
  | Encode cv format quality =>
      exists b, encode_canvas cv format quality = Some b /\
                (size b <=? targetSizeBytes) = false
  | _ => False
  end.

(** A call that works from the decoded image [img]: a drawing takes
    [img] as its source and a cleared canvas as its destination, an
    encoding takes a canvas on which [img] alone was drawn. *)
Definition from_source (img : Image) (c : Call) : Prop :=
  match c with
  | Decode _ => True
  | Draw i dst onto =>
      i = img /\ onto = cleared (cwidth onto) (cheight onto) /\
      (dst = None \/ dst = Some (cwidth onto, cheight onto))
  | Encode cv _ _ =>
      exists dst, cv = rendered img dst (cwidth cv) (cheight cv) /\
                  (dst = None \/ dst = Some (cwidth cv, cheight cv))
  end.

(** A world with a given canvas and no call made yet. *)
Definition from (c : Canvas) : World := {| canvas := c; calls := [] |}.

(** The outcome and the new canvas of a promise depend on the canvas
    only, and its calls are added at the end of the trace. *)
Definition framed {A} (p : Promise A) : Prop :=
  forall w,
    p w = (fst (p (from (canvas w))),
           {| canvas := canvas (snd (p (from (canvas w))));
              calls := calls w ++ calls (snd (p (from (canvas w)))) |}).

(** The world in which the search starts (after line 71). *)
Definition loaded (file : File) (img : Image) (w : World) : World :=
  {| canvas := source_canvas img;
     calls := calls w ++ [Decode file;
                          Draw img None (cleared (width img) (height img))] |}.

(** Lines 75-87 and lines 90-117, as run after line 71. *)
Definition png_branch (fuel : nat) (img : Image)
    (targetSizeKB : JS.number) : Promise Result :=
  currentBlob <- getCanvasBlob image_png JS.lit_1 ;;
  r <- png_loop fuel img (targetSizeKB * JS.lit_1024) image_png
         currentBlob JS.lit_1 ;;
  resolve {| blob := fst r; finalSizeKB := size (fst r) / JS.lit_1024 |}.

Definition finish (targetSizeKB : JS.number) (targetFormat : TargetFormat)
    (st : JS.number * JS.number * option Blob) : Promise Result :=
  let '(minQuality, _, bestBlob) := st in
  match bestBlob with
  | Some bestBlob =>
      resolve {| blob := bestBlob;
                 finalSizeKB := size bestBlob / JS.lit_1024 |}
  | None =>
      fallbackBlob <- getCanvasBlob targetFormat minQuality ;;
      if size fallbackBlob >? targetSizeKB * JS.lit_1024 * JS.lit_1_2 then
        reject (UnreachableBudget targetSizeKB)
      else
        resolve {| blob := fallbackBlob;
                   finalSizeKB := size fallbackBlob / JS.lit_1024 |}
  end.

Definition lossy_branch (targetSizeKB : JS.number)
    (targetFormat : TargetFormat) : Promise Result :=
  st <- quality_loop 10 (targetSizeKB * JS.lit_1024) targetFormat
          JS.lit_0 JS.lit_1 None ;;
  finish targetSizeKB targetFormat st.

End Vocabulary.

(* ===================================================================== *)
(** ** A browser to run the program on *)
(* ===================================================================== *)

(** A small deterministic browser.  A file of two bytes [w; h] decodes
    to an image of [w] by [h] pixels, any other file is rejected.  The
    bitmap of a canvas is the number of pixels drawn on it.  A canvas
    without pixels cannot be encoded; otherwise a PNG blob has 8 bytes
    plus one byte per drawn pixel, and a JPEG or WebP blob has [header]
    bytes plus [round (quality * pixels)] bytes. *)
Module Fake.

Definition decode (file : File) : option (Z * Z) :=
  match file with
  | [w; h] => Some (Z.of_N (Byte.to_N w), Z.of_N (Byte.to_N h))
  | _ => None
  end.

Definition paint (img : Z * Z) (dst : option (Z * Z)) (w h : Z) (_ : Z) : Z :=
  let '(dw, dh) := match dst with Some d => d | None => img end in
  Z.min w dw * Z.min h dh.

Definition toBlob (header : nat) (w h : Z) (pixels : Z)
    (format : TargetFormat) (quality : JS.number) : option Blob :=
  if (w <=? 0)%Z || (h <=? 0)%Z then None
  else
    match format with
    | image_png => Some (repeat Byte.x00 (8 + Z.to_nat pixels))
    | _ =>
        Some (repeat Byte.x00
                (header + Z.to_nat (JS.to_unsigned_long
                   (JS.Math_round (quality * JS.of_Z pixels)))))
    end.

Definition browser (header : nat) : Browser :=
  Build_Browser (Z * Z) fst snd Z decode true (fun _ _ => 0%Z) paint
    (toBlob header).

(** Three files: a 64 by 32 picture, a 15 by 15 icon, and one byte
    that is no image. *)
Definition photo : File := [Byte.x40; Byte.x20].
Definition icon : File := [Byte.x0f; Byte.x0f].
Definition garbage : File := [Byte.x05].

(** Target sizes: 1 KB, and one byte (1/1024 KB). *)
Definition one_KB : JS.number := JS.of_Z 1.
Definition one_byte : JS.number := JS.of_Z 1 / JS.of_Z 1024.

(** The same browser without a 2d context. *)
Definition headless : Browser :=
  Build_Browser (Z * Z) fst snd Z decode false (fun _ _ => 0%Z) paint
    (toBlob 100).

Definition idle_headless : @World headless :=
  @Build_World headless (@Build_Canvas headless 0 0 0%Z) [].

(** The world before the call. *)
Definition idle (header : nat) : @World (browser header) :=
  @Build_World (browser header) (@Build_Canvas (browser header) 0 0 0%Z) [].

End Fake.

(* ===================================================================== *)
(** ** Vocabulary of the further properties *)
(* ===================================================================== *)

(** Equality of numbers as data (the same bits, not [==]). *)
Definition number_eqb (x y : JS.number) : bool :=
  match x, y with
  | S754_zero a, S754_zero b => Bool.eqb a b
  | S754_infinity a, S754_infinity b => Bool.eqb a b
  | S754_nan, S754_nan => true
  | S754_finite a m e, S754_finite b n f =>
      Bool.eqb a b && Pos.eqb m n && Z.eqb e f
  | _, _ => false
  end.

(** [2^-10], the width of the bracket after ten halvings of [0, 1], and
    [1023/1024], the highest quality the search can try. *)
Definition two_to_minus_10 : JS.number := JS.lit_1 / JS.lit_1024.
Definition top_quality : JS.number := JS.of_Z 1023 / JS.lit_1024.

Section TraceVocabulary.

Context {browser : Browser}.

(** An encoder call for which [toBlob] answered [null], and a call that
    is not one. *)
Definition encode_failed (c : Call) : Prop :=
  match c with
  | Encode cv format quality => encode_canvas cv format quality = None
  | _ => False
  end.

Definition call_succeeded (c : Call) : Prop :=
  match c with
  | Encode cv format quality => encode_canvas cv format quality <> None
  | _ => True
  end.

Definition is_draw (c : Call) : bool :=
  match c with Draw _ _ _ => true | _ => false end.

(** The number of [drawImage] calls in a trace. *)
Definition draws (l : list Call) : nat := length (filter is_draw l).

(** A PNG encoding at quality 1. *)
Definition png_encode_or_draw (c : Call) : Prop :=
  match c with
  | Encode _ format quality => format = image_png /\ quality = JS.lit_1
  | _ => True
  end.

End TraceVocabulary.

Section AbortVocabulary.

Context {browser : Browser}.

(** How a run and the calls [l] it made stand to encoder failures:
    either it is rejected with the encoder's error and the failed call
    is the last one, or it is not and no call failed. *)
Definition aborts_or_succeeds {A} (r : Settled A) (l : list Call) : Prop :=
  (r = Rejected EncodeError
   /\ exists l' c, l = l' ++ [c] /\ encode_failed c
                   /\ Forall call_succeeded l')
  \/ (r <> Rejected EncodeError /\ Forall call_succeeded l).

End AbortVocabulary.

Section BracketVocabulary.

Context {browser : Browser}.
Variable target : JS.number.
Variable format : TargetFormat.
Variable c : Canvas.

(** What the binary search knows about its two ends: a best blob is
    the encoding at [minQuality] and fits; [maxQuality] is still 1 or
    was tried and did not fit. *)
Definition floor_holds (minQ : JS.number) (bestBlob : option Blob) : Prop :=
  match bestBlob with
  | None => True
  | Some b => encode_canvas c format minQ = Some b
              /\ (size b <=? target) = true
  end.

Definition ceiling_holds (maxQ : JS.number) : Prop :=
  maxQ = JS.lit_1
  \/ exists b, encode_canvas c format maxQ = Some b
               /\ (size b <=? target) = false.

End BracketVocabulary.

(* ===================================================================== *)
(** ** The application component, [App]

    The functions of the component that surround the call of
    [processImage]: [formatFileSize], [handleFileChange],
    [handleProcessImage], [getFileExtension] and [handleDownload].  The
    state of the component is a record; a handler maps the state in
    which it is called to the state after its last [set...] call.
    Strings are sequences of 8-bit characters. *)
(* ===================================================================== *)

Module App.

Import Ascii String.

Local Infix "+++" := String.append (at level 60, right associativity).

(** The [TargetFormat] of [utils/imageProcessor]. *)
Definition ProcessorFormat : Type := TargetFormat.

(** *** String methods *)

(** [s.startsWith(prefix)] *)
Definition startsWith (s prefix : String.string) : bool :=
  String.prefix prefix s.

(** [s.lastIndexOf(c)] for a one-character search string: the index of
    the last occurrence, [-1] when there is none. *)
Fixpoint lastIndexOf_from (s : String.string) (c : Ascii.ascii)
    (i last : Z) : Z :=
  match s with
  | String.EmptyString => last
  | String.String d s' =>
      lastIndexOf_from s' c (i + 1) (if Ascii.eqb d c then i else last)
  end.

Definition lastIndexOf (s : String.string) (c : Ascii.ascii) : Z :=
  lastIndexOf_from s c 0 (-1).

(** [s.substring(start, end)]: both indices are clamped to
    [0 .. s.length] and swapped when out of order. *)
Definition substring (s : String.string) (start finish : Z) : String.string :=
  let len := Z.of_nat (String.length s) in
  let a := Z.min (Z.max start 0) len in
  let b := Z.min (Z.max finish 0) len in
  String.substring (Z.to_nat (Z.min a b)) (Z.to_nat (Z.max a b - Z.min a b)) s.

(** [s.split(c)] for a one-character separator. *)
Fixpoint split (s : String.string) (c : Ascii.ascii) : list String.string :=
  match s with
  | String.EmptyString => [String.EmptyString]
  | String.String d s' =>
      if Ascii.eqb d c then String.EmptyString :: split s' c
      else match split s' c with
           | head :: tail => String.String d head :: tail
           | [] => [String.String d String.EmptyString]
           end
  end.

(** *** [Number.prototype.toFixed] *)

(** The decimal digits of a natural number. *)
Definition digits (n : Z) : String.string :=
  DecimalString.NilZero.string_of_uint (N.to_uint (Z.to_N n)).

Fixpoint zeros (k : nat) : String.string :=
  match k with
  | O => String.EmptyString
  | S k' => String.String "0"%char (zeros k')
  end.

(** The digits of [n] with a point before the last [f] of them, padded
    with zeros on the left up to [f + 1] digits. *)
Definition fixed_digits (n : Z) (f : nat) : String.string :=
  let m := digits n in
  match f with
  | O => m
  | S _ =>
      let k := String.length m in
      let m := if (k <=? f)%nat then zeros (f + 1 - k) +++ m else m in
      let k := String.length m in
      String.substring 0 (k - f) m +++ "."%string
        +++ String.substring (k - f) f m
  end.

Section WithToString.

(** [Number::toString], used by [toFixed] from 10^21 on and by template
    literals; not modelled. *)
Variable Number_toString : JS.number -> String.string.

(** [x.toFixed(fractionDigits)]; [None] is the [RangeError] thrown
    outside 0..100.  For a finite [x] below 10^21 the digits are those
    of the integer [n] nearest to [|x| * 10^f], the larger one on a
    tie. *)
Definition toFixed (x : JS.number) (fractionDigits : Z) : option String.string :=
  if (fractionDigits <? 0)%Z || (100 <? fractionDigits)%Z then None
  else
    let f := Z.to_nat fractionDigits in
    Some match x with
         | S754_nan => "NaN"%string
         | S754_infinity false => "Infinity"%string
         | S754_infinity true => "-Infinity"%string
         | S754_zero _ => fixed_digits 0 f
         | S754_finite s m e =>
             let num := if (0 <=? e)%Z then (Zpos m * 2 ^ e)%Z else Zpos m in
             let den := if (0 <=? e)%Z then 1%Z else (2 ^ (- e))%Z in
             let sign := if s then "-"%string else String.EmptyString in
             if (10 ^ 21 * den <=? num)%Z then
               sign +++ Number_toString (S754_finite false m e)
             else
               sign +++ fixed_digits
                          ((2 * num * 10 ^ fractionDigits + den) / (2 * den)) f
         end.

(** *** [formatFileSize], lines 7-16

    [kb] is [None] for [undefined]; [precision] is [None] when the
    argument is left out. *)
Definition formatFileSize (kb : option JS.number) (precision : option Z)
  : option String.string :=
  let precision := match precision with Some p => p | None => 2%Z end in
  match kb with
  | None => Some String.EmptyString
  | Some kb =>
      if JS.of_Z 1000 <=? kb then
        let mb := kb / JS.lit_1024 in
        match toFixed mb 2 with
        | Some t => Some (t +++ " MB"%string)
        | None => None
        end
      else
        match toFixed kb precision with
        | Some t => Some (t +++ " KB"%string)
        | None => None
        end
  end.

(** *** The state of the component *)

(** [type TargetFormat = 'image/jpeg' | 'image/png' | 'image/webp' |
    'image/jpg'] at line 5: the three formats of [utils/imageProcessor]
    and ['image/jpg']. *)
Inductive TargetFormat : Type :=
| known (format : ProcessorFormat)
| image_jpg.


(** The string that a format is. *)
Definition mime (f : TargetFormat) : String.string :=
  match f with
  | known image_jpeg => "image/jpeg"%string
  | known image_png => "image/png"%string
  | known image_webp => "image/webp"%string
  | image_jpg => "image/jpg"%string
  end.

(** A [File] as the component uses it: [file.name], [file.type] and the
    bytes. *)
Record UploadedFile : Type := {
  name : String.string;
  type : String.string;
  content : File
}.

(** [{ url, size }] *)
Record ProcessedImage : Type := { url : String.string; size_KB : JS.number }.

(** The six [useState] cells of lines 19-24. *)
Record State : Type := {
  originalFile : option UploadedFile;
  targetSizeKB : JS.number;
  targetFormat : TargetFormat;
  processedImage : option ProcessedImage;
  isProcessing : bool;
  error : option String.string
}.

(** Lines 19-24: the state of a component just mounted. *)
Definition initial : State :=
  {| originalFile := None; targetSizeKB := JS.of_Z 100;
     targetFormat := known image_jpeg; processedImage := None;
     isProcessing := false; error := None |}.

Definition setOriginalFile (v : option UploadedFile) (st : State) : State :=
  {| originalFile := v; targetSizeKB := targetSizeKB st;
     targetFormat := targetFormat st; processedImage := processedImage st;
     isProcessing := isProcessing st; error := error st |}.

Definition setTargetSizeKB (v : JS.number) (st : State) : State :=
  {| originalFile := originalFile st; targetSizeKB := v;
     targetFormat := targetFormat st; processedImage := processedImage st;
     isProcessing := isProcessing st; error := error st |}.

Definition setTargetFormat (v : TargetFormat) (st : State) : State :=
  {| originalFile := originalFile st; targetSizeKB := targetSizeKB st;
     targetFormat := v; processedImage := processedImage st;
     isProcessing := isProcessing st; error := error st |}.

Definition setProcessedImage (v : option ProcessedImage) (st : State) : State :=
  {| originalFile := originalFile st; targetSizeKB := targetSizeKB st;
     targetFormat := targetFormat st; processedImage := v;
     isProcessing := isProcessing st; error := error st |}.

Definition setIsProcessing (v : bool) (st : State) : State :=
  {| originalFile := originalFile st; targetSizeKB := targetSizeKB st;
     targetFormat := targetFormat st; processedImage := processedImage st;
     isProcessing := v; error := error st |}.

Definition setError (v : option String.string) (st : State) : State :=
  {| originalFile := originalFile st; targetSizeKB := targetSizeKB st;
     targetFormat := targetFormat st; processedImage := processedImage st;
     isProcessing := isProcessing st; error := v |}.

(** *** [handleFileChange], lines 33-44

    [file] is [event.target.files?.[0]]. *)
Definition handleFileChange (file : option UploadedFile) (st : State) : State :=
  match file with
  | Some file =>
      if negb (startsWith (type file) "image/"%string) then
        setError (Some "Please upload a valid image file."%string) st
      else
        setError None (setProcessedImage None (setOriginalFile (Some file) st))
  | None => st
  end.

(** [err instanceof Error ? err.message : ...]: the message of an error
    object, [None] for what is no [Error] -- [loadImage] rejects with
    the event its [onerror] handlers receive. *)
Definition message (err : Error) : option String.string :=
  match err with
  | DecodeError => None
  | ContextError => Some "Could not get canvas context."%string
  | EncodeError => Some "Canvas to Blob conversion failed."%string
  | UnreachableBudget targetSizeKB =>
      Some ("Could not resize image below "%string
            +++ Number_toString targetSizeKB
            +++ "KB. Try reducing dimensions or using a different format."%string)
  end.

Section WithBrowser.

Context {browser : Browser}.

(** [URL.createObjectURL] *)
Variable createObjectURL : Blob -> String.string.

(** *** [handleProcessImage], lines 46-67 *)
Definition handleProcessImage (fuel : nat) (st : State) : Promise State :=
  match originalFile st with
  | None => resolve (setError (Some "Please upload an image first."%string) st)
  | Some originalFile =>
      let st := setProcessedImage None (setError None (setIsProcessing true st)) in
      let processingFormat :=
        match targetFormat st with
        | image_jpg => image_jpeg
        | known format => format
        end in
      fun w =>
        match processImage fuel (content originalFile) (targetSizeKB st)
                processingFormat w with
        | (Resolved r, w') =>
            let url := createObjectURL (blob r) in
            (Resolved
               (setIsProcessing false
                  (setProcessedImage
                     (Some {| url := url; size_KB := finalSizeKB r |}) st)),
             w')
        | (Rejected err, w') =>
            (Resolved
               (setIsProcessing false
                  (setProcessedImage None
                     (setError
                        (Some match message err with
                              | Some m => m
                              | None =>
                                  "An unknown error occurred during processing."%string
                              end) st))),
             w')
        | (Pending, w') => (Pending, w')
        end
  end.

End WithBrowser.

End WithToString.

(** *** [getFileExtension], lines 69-74; [None] is [undefined]. *)
Definition getFileExtension (mimeType : TargetFormat) : option String.string :=
  match mimeType with
  | image_jpg => Some "jpg"%string
  | _ => nth_error (split (mime mimeType) "/"%char) 1
  end.

(** The anchor element that [handleDownload] clicks. *)
Record Link : Type := { href : String.string; download : String.string }.

(** *** [handleDownload], lines 76-86; [None] when it returns at once. *)
Definition handleDownload (st : State) : option Link :=
  match processedImage st, originalFile st with
  | Some processedImage, Some originalFile =>
      let originalName :=
        substring (name originalFile) 0
          (lastIndexOf (name originalFile) "."%char) in
      Some {| href := url processedImage;
              download :=
                originalName +++ "_resized."%string
                +++ match getFileExtension (targetFormat st) with
                    | Some ext => ext
                    | None => "undefined"%string
                    end |}
  | _, _ => None
  end.

End App.

(** *** Sessions

    What the user does to the component, one handler at a time: the
    file inputs (lines 142 and 254), the slider (line 206), the format
    menu (line 218) and the resize button (line 233). *)
Module Session.

Inductive Action : Type :=
| SelectFile (file : option App.UploadedFile)
| MoveSlider (value : JS.number)
| ChooseFormat (format : App.TargetFormat)
| ClickResize.

Section WithBrowser.

Context {browser : Browser}.
Variable Number_toString : JS.number -> String.string.
Variable createObjectURL : Blob -> String.string.

Definition act (fuel : nat) (a : Action) (st : App.State) : Promise App.State :=
  match a with
  | SelectFile file => resolve (App.handleFileChange file st)
  | MoveSlider value => resolve (App.setTargetSizeKB value st)
  | ChooseFormat format => resolve (App.setTargetFormat format st)
  | ClickResize =>
      App.handleProcessImage Number_toString createObjectURL fuel st
  end.

Fixpoint run (fuel : nat) (actions : list Action) (st : App.State)
  : Promise App.State :=
  match actions with
  | [] => resolve st
  | a :: rest => st' <- act fuel a st ;; run fuel rest st'
  end.

End WithBrowser.

(** A processed image is shown only next to the file it comes from, and
    no processing is under way. *)
Definition settled_state (st : App.State) : Prop :=
  App.isProcessing st = false
  /\ (App.processedImage st <> None -> App.originalFile st <> None).

End Session.

(** Stand-ins for [Number::toString] and [URL.createObjectURL], and two
    files, to run the component on the small browser. *)
Module FakeApp.

Import Ascii String.

Definition Number_toString (x : JS.number) : string :=
  match x with
  | S754_finite false m e =>
      if (e <? 0)%Z then App.digits (Zpos m / 2 ^ (- e))
      else App.digits (Zpos m * 2 ^ e)
  | _ => "0"%string
  end.

Definition createObjectURL (b : Blob) : string :=
  String.append "blob:"%string (App.digits (Z.of_nat (List.length b))).

Definition photo : App.UploadedFile :=
  {| App.name := "holiday.photo.png"%string; App.type := "image/png"%string;
     App.content := Fake.photo |}.

Definition notes : App.UploadedFile :=
  {| App.name := "notes"%string; App.type := "text/plain"%string;
     App.content := Fake.garbage |}.

Definition scan : App.UploadedFile :=
  {| App.name := "scan"%string; App.type := "image/jpeg"%string;
     App.content := Fake.icon |}.

End FakeApp.

(** A second small browser, for the lossy search: files, canvases and
    PNG are those of [Fake]; a JPEG or WebP blob has 8 bytes up to
    quality 0.1 and 2048 bytes above. *)
Module Coarse.

Definition toBlob (w h : Z) (pixels : Z)
    (format : TargetFormat) (quality : JS.number) : option Blob :=
  if (w <=? 0)%Z || (h <=? 0)%Z then None
  else
    match format with
    | image_png => Some (repeat Byte.x00 (8 + Z.to_nat pixels))
    | _ => Some (repeat Byte.x00
                   (if quality <=? JS.lit_0_1 then 8 else 2048))
    end.

Definition browser : Browser :=
  Build_Browser (Z * Z) fst snd Z Fake.decode true (fun _ _ => 0%Z)
    Fake.paint toBlob.

(** The world before the call. *)
Definition idle : @World browser :=
  @Build_World browser (@Build_Canvas browser 0 0 0%Z) [].

End Coarse.

Section ScaleVocabulary.

Context {browser : Browser}.

(** The canvas of the PNG search after [k] decrements of the scale: the
    image as drawn at line 71 for [k = 0], resampled at lines 81-83
    otherwise. *)
Definition canvas_at (img : Image) (k : nat) : Canvas :=
  match k with
  | O => source_canvas img
  | S _ => resampled_canvas img (scale_seq k)
  end.

End ScaleVocabulary.

(* ===================================================================== *)
(** ** Facts about numbers *)
(* ===================================================================== *)

Section Rounding.

Lemma shr_1_nonneg mrs : nonneg mrs -> nonneg (shr_1 mrs).
Proof.
  unfold nonneg. destruct mrs as [m r s].
  destruct m as [|p|p]; try destruct p; simpl; lia.
Qed.

Lemma iter_pos_shr_1_nonneg p :
  forall mrs, nonneg mrs -> nonneg (iter_pos shr_1 p mrs).
Proof.
  induction p as [p IH|p IH|]; intros mrs H; simpl.
  - apply IH, IH, shr_1_nonneg, H.
  - apply IH, IH, H.
  - apply shr_1_nonneg, H.
Qed.

Lemma shr_fexp_nonneg m e l :
  (0 <= m)%Z -> nonneg (fst (shr_fexp JS.prec JS.emax m e l)).
Proof.
  intros Hm. unfold shr_fexp, shr.
  assert (H0 : nonneg (shr_record_of_loc m l))
    by (unfold nonneg; destruct l as [|[]]; exact Hm).
  destruct (fexp JS.prec JS.emax (Zdigits2 m + e) - e)%Z; simpl; trivial.
  apply iter_pos_shr_1_nonneg, H0.
Qed.

Lemma round_nearest_even_nonneg m l :
  (0 <= m)%Z -> (0 <= round_nearest_even m l)%Z.
Proof.
  intros Hm. unfold round_nearest_even.
  destruct l as [|[]]; try destruct (Z.even m); lia.
Qed.

Lemma binary_round_aux_not_nan sx mx ex lx :
  (0 <= mx)%Z ->
  JS.is_nan (binary_round_aux JS.prec JS.emax sx mx ex lx) = false.
Proof.
  intros Hm. unfold binary_round_aux.
  pose proof (shr_fexp_nonneg mx ex lx Hm) as H1.
  destruct (shr_fexp JS.prec JS.emax mx ex lx) as [mrs' e'].
  pose proof (shr_fexp_nonneg
                (round_nearest_even (shr_m mrs') (loc_of_shr_record mrs'))
                e' loc_Exact
                (round_nearest_even_nonneg _ _ H1)) as H2.
  destruct (shr_fexp _ _ _ e' loc_Exact) as [mrs'' e''].
  unfold nonneg in H2. simpl in H2.
  destruct (shr_m mrs'') as [|m|m]; try reflexivity; try lia.
  destruct (e'' <=? JS.emax - JS.prec)%Z; reflexivity.
Qed.

End Rounding.

Lemma of_Z_not_nan n : JS.is_nan (JS.of_Z n) = false.
Proof.
  unfold JS.of_Z, binary_normalize, binary_round.
  destruct n as [|m|m]; try reflexivity;
    destruct (shl_align _ _ _) as [mz ez];
    apply binary_round_aux_not_nan; lia.
Qed.

Lemma size_not_nan (b : Blob) : JS.is_nan (size b) = false.
Proof. apply of_Z_not_nan. Qed.

(** A number that is not NaN stays so when multiplied by a non-zero
    finite number. *)
Lemma mul_finite_not_nan x s m e :
  JS.is_nan x = false -> JS.is_nan (x * S754_finite s m e) = false.
Proof.
  destruct x as [sx|sx| |sx mx ex]; simpl; intros H; try discriminate;
    try reflexivity.
  apply binary_round_aux_not_nan. lia.
Qed.

Lemma compare_antisym x y c :
  SFcompare x y = Some c -> SFcompare y x = Some (CompOpp c).
Proof.
  destruct x as [sx|sx| |sx mx ex], y as [sy|sy| |sy my ey]; simpl;
    try discriminate;
    try (destruct sx; intros [= <-]; reflexivity);
    try (destruct sy; intros [= <-]; reflexivity);
    try (intros [= <-]; reflexivity).
  - destruct sx, sy; intros [= <-]; reflexivity.
  - intros [= <-]. f_equal.
    rewrite (Z.compare_antisym ex ey).
    assert (E : Pos.compare_cont Eq my mx = CompOpp (Pos.compare_cont Eq mx my))
      by (rewrite Pos.compare_cont_antisym; reflexivity).
    rewrite E.
    destruct sx, sy; simpl; try reflexivity;
      destruct (ex ?= ey)%Z; simpl; try reflexivity;
      destruct (Pos.compare_cont Eq mx my); reflexivity.
Qed.

Lemma compare_not_nan x y :
  JS.is_nan x = false -> JS.is_nan y = false ->
  exists c, SFcompare x y = Some c.
Proof.
  destruct x, y; simpl; intros; try discriminate; eexists; reflexivity.
Qed.

(** Away from NaN, [!(x > y)] is [x <= y]. *)
Lemma not_gt_le x y :
  JS.is_nan x = false -> JS.is_nan y = false ->
  (x >? y) = false -> (x <=? y) = true.
Proof.
  intros Hx Hy. unfold JS.gt, JS.le, SFltb, SFleb.
  destruct (compare_not_nan x y Hx Hy) as [c Hc].
  rewrite (compare_antisym _ _ _ Hc), Hc.
  destruct c; simpl; congruence.
Qed.

Arguments JS.mul : simpl never.
Arguments JS.div : simpl never.
Arguments JS.add : simpl never.
Arguments JS.sub : simpl never.
Arguments JS.lt : simpl never.
Arguments JS.le : simpl never.
Arguments JS.gt : simpl never.
Arguments JS.of_Z : simpl never.
Arguments size : simpl never.
Arguments scaled : simpl never.
Arguments scale_seq : simpl never.

(* ===================================================================== *)
(** ** Frame lemmas: promises and the trace *)
(* ===================================================================== *)

Section Frames.

Context {browser : Browser}.

Ltac frame_prim :=
  intros [c l]; cbv [from canvas calls fst snd record];
  repeat match goal with
         | |- context [match ?x with _ => _ end] => destruct x
         end;
  cbv [from canvas calls fst snd record];
  rewrite ?app_nil_r; reflexivity.

Lemma framed_resolve {A} (a : A) : framed (resolve a).
Proof. unfold framed, resolve. frame_prim. Qed.

Lemma framed_reject {A} (e : Error) : framed (@reject _ A e).
Proof. unfold framed, reject. frame_prim. Qed.

Lemma framed_pending {A} : framed (@pending _ A).
Proof. unfold framed, pending. frame_prim. Qed.

Lemma framed_await {A B} (p : Promise A) (k : A -> Promise B) :
  framed p -> (forall a, framed (k a)) -> framed (await p k).
Proof.
  intros Hp Hk w. unfold await.
  rewrite (Hp w).
  destruct (p (from (canvas w))) as [[a|e|] [c1 l1]]; simpl; trivial.
  rewrite (Hk a {| canvas := c1; calls := calls w ++ l1 |}).
  rewrite (Hk a {| canvas := c1; calls := l1 |}). simpl.
  rewrite app_assoc. reflexivity.
Qed.

Lemma framed_createCanvas : framed createCanvas.
Proof. unfold framed, createCanvas. frame_prim. Qed.

Lemma framed_getContext : framed getContext.
Proof.
  unfold getContext. destruct context2d;
    [apply framed_resolve | apply framed_reject].
Qed.

Lemma framed_set_width v : framed (set_width v).
Proof. unfold framed, set_width. frame_prim. Qed.

Lemma framed_set_height v : framed (set_height v).
Proof. unfold framed, set_height. frame_prim. Qed.

Lemma framed_get_canvas : framed get_canvas.
Proof. unfold framed, get_canvas. frame_prim. Qed.

Lemma framed_drawImage img dst : framed (drawImage img dst).
Proof. unfold framed, drawImage. frame_prim. Qed.

Lemma framed_loadImage file : framed (loadImage file).
Proof. unfold framed, loadImage. frame_prim. Qed.

Lemma framed_getCanvasBlob format quality :
  framed (getCanvasBlob format quality).
Proof. unfold framed, getCanvasBlob. frame_prim. Qed.

Create HintDb frames.
Hint Resolve framed_resolve framed_reject framed_pending framed_createCanvas
  framed_getContext framed_set_width framed_set_height framed_get_canvas
  framed_drawImage framed_loadImage framed_getCanvasBlob : frames.

Ltac frames :=
  repeat first
    [ apply framed_await; [ | intros ? ]
    | progress auto with frames
    | match goal with
      | |- framed (if ?b then _ else _) => destruct b
      | |- framed (match ?x with _ => _ end) => destruct x
      end ].

Lemma framed_png_loop fuel img target format :
  forall currentBlob scale,
    framed (png_loop fuel img target format currentBlob scale).
Proof.
  induction fuel as [|fuel IH]; intros currentBlob scale; simpl;
    destruct (_ && _); frames.
Qed.

Lemma framed_quality_loop n target format :
  forall minQuality maxQuality bestBlob,
    framed (quality_loop n target format minQuality maxQuality bestBlob).
Proof.
  induction n as [|n IH]; intros; simpl; frames.
Qed.

End Frames.

(* ===================================================================== *)
(** ** Unfolding the program *)
(* ===================================================================== *)

Section Unfolding.

Context {browser : Browser}.

Ltac prelude :=
  cbv beta iota zeta delta
    [await loadImage getContext createCanvas set_width set_height drawImage
     resolve reject record canvas calls cwidth cheight bitmap fst snd
     loaded source_canvas rendered cleared png_branch lossy_branch].

Lemma processImage_undecodable fuel file kb format w :
  decode file = None ->
  processImage fuel file kb format w
  = (Rejected DecodeError, record (Decode file) w).
Proof.
  intros H. unfold processImage, await, loadImage. rewrite H. reflexivity.
Qed.

Lemma processImage_png fuel file kb w img :
  decode file = Some img -> context2d = true ->
  processImage fuel file kb image_png w
  = png_branch fuel img kb (loaded file img w).
Proof.
  intros Hd Hc. unfold processImage. prelude.
  rewrite Hd, Hc. prelude. rewrite <- app_assoc. reflexivity.
Qed.

Lemma processImage_lossy fuel file kb format w img :
  is_png format = false ->
  decode file = Some img -> context2d = true ->
  processImage fuel file kb format w
  = lossy_branch kb format (loaded file img w).
Proof.
  intros Hf Hd Hc. unfold processImage. rewrite Hf. prelude.
  rewrite Hd, Hc. prelude. rewrite <- app_assoc. reflexivity.
Qed.

(** One turn of the quality loop. *)
Lemma quality_loop_turn n target format minQ maxQ bestBlob w :
  quality_loop (S n) target format minQ maxQ bestBlob w
  = let quality := (minQ + maxQ) / JS.lit_2 in
    let w' := record (Encode (canvas w) format quality) w in
    match encode_canvas (canvas w) format quality with
    | None => (Rejected EncodeError, w')
    | Some b =>
        if size b <=? target
        then quality_loop n target format quality maxQ (Some b) w'
        else quality_loop n target format minQ quality bestBlob w'
    end.
Proof.
  cbn [quality_loop]. unfold await, getCanvasBlob, encode_canvas.
  cbv zeta.
  destruct (toBlob _ _ _ _ _) as [b|]; trivial.
  destruct (size b <=? target); reflexivity.
Qed.

(** One turn of the dimension loop. *)
Lemma png_loop_turn fuel img target format currentBlob scale w :
  png_loop (S fuel) img target format currentBlob scale w
  = if (size currentBlob >? target) && (scale >? JS.lit_0_1) then
      let scale' := scale - JS.lit_0_05 in
      let c := resampled_canvas img scale' in
      let w' :=
        {| canvas := c;
           calls := calls w ++
                    [Draw img (Some (cwidth c, cheight c))
                       (cleared (cwidth c) (cheight c));
                     Encode c format JS.lit_1] |} in
      match encode_canvas c format JS.lit_1 with
      | None => (Rejected EncodeError, w')
      | Some b => png_loop fuel img target format b scale' w'
      end
    else (Resolved (currentBlob, scale), w).
Proof.
  cbn [png_loop]. destruct (_ && _); trivial.
  destruct w as [c l].
  cbv beta iota zeta delta
    [await getCanvasBlob get_canvas set_width set_height drawImage
     encode_canvas resampled_canvas rendered cleared scaled record
     canvas calls cwidth cheight bitmap fst snd].
  rewrite <- app_assoc.
  destruct (toBlob _ _ _ _ _) as [b|]; reflexivity.
Qed.

Lemma png_loop_out img target format currentBlob scale w :
  png_loop 0 img target format currentBlob scale w
  = if (size currentBlob >? target) && (scale >? JS.lit_0_1)
    then (Pending, w) else (Resolved (currentBlob, scale), w).
Proof. cbn [png_loop]. destruct (_ && _); reflexivity. Qed.

End Unfolding.

(* ===================================================================== *)
(** ** The quality loop *)
(* ===================================================================== *)

Lemma reach_bisect k s fits :
  In s (reach k) -> In (bisect fits s) (reach (S k)).
Proof.
  intros H. cbn [reach]. apply in_flat_map. exists s. split; trivial.
  destruct fits; simpl; auto.
Qed.

(** Every pair reachable within ten turns is a bracket, and the quality
    tried from a pair reachable within nine turns is strictly inside
    (0, 1).  There are 2047 such pairs; they are enumerated. *)
Lemma reach_checked :
  forallb (fun k =>
             forallb (fun s =>
                        bracket s &&
                        (Nat.eqb k 10 ||
                         strictly_inside ((fst s + snd s) / JS.lit_2)))
                     (reach k))
          (seq 0 11) = true.
Proof. vm_compute. reflexivity. Qed.

Lemma reach_bracket k s :
  (k <= 10)%nat -> In s (reach k) -> bracket s = true.
Proof.
  intros Hk Hs. pose proof reach_checked as H.
  rewrite forallb_forall in H.
  specialize (H k ltac:(apply in_seq; lia)).
  rewrite forallb_forall in H. specialize (H s Hs).
  apply andb_true_iff in H. tauto.
Qed.

Lemma reach_inside k s :
  (k < 10)%nat -> In s (reach k) ->
  strictly_inside ((fst s + snd s) / JS.lit_2) = true.
Proof.
  intros Hk Hs. pose proof reach_checked as H.
  rewrite forallb_forall in H.
  specialize (H k ltac:(apply in_seq; lia)).
  rewrite forallb_forall in H. specialize (H s Hs).
  apply andb_true_iff in H. destruct H as [_ H].
  apply orb_true_iff in H. destruct H as [H|H]; trivial.
  apply Nat.eqb_eq in H. lia.
Qed.

Section QualityLoop.

Context {browser : Browser}.
Variable target : JS.number.
Variable format : TargetFormat.

Local Abbreviation loop n minQ maxQ bestBlob :=
  (quality_loop n target format minQ maxQ bestBlob).

Lemma record_calls (c : Call) (w : World) l :
  calls (record c w) ++ l = calls w ++ c :: l.
Proof. unfold record. simpl. rewrite <- app_assoc. reflexivity. Qed.

(** The loop only encodes, on the canvas it finds, once per turn; it
    is rejected by the encoder alone and is never left pending. *)
Lemma quality_loop_trace n :
  forall minQ maxQ bestBlob w,
  exists qs,
    snd (loop n minQ maxQ bestBlob w)
    = {| canvas := canvas w;
         calls := calls w ++ map (Encode (canvas w) format) qs |}
    /\ (length qs <= n)%nat
    /\ match fst (loop n minQ maxQ bestBlob w) with
       | Resolved _ => length qs = n
       | Rejected e => e = EncodeError
       | Pending => False
       end.
Proof.
  induction n as [|n IH]; intros minQ maxQ bestBlob w.
  - exists []. destruct w as [c l]. simpl. rewrite app_nil_r. auto.
  - rewrite quality_loop_turn. cbv zeta.
    set (q := (minQ + maxQ) / JS.lit_2).
    destruct (encode_canvas (canvas w) format q) as [b|].
    + destruct (size b <=? target);
        [ destruct (IH q maxQ (Some b) (record (Encode (canvas w) format q) w))
            as (qs & Hw & Hlen & Hres)
        | destruct (IH minQ q bestBlob (record (Encode (canvas w) format q) w))
            as (qs & Hw & Hlen & Hres) ];
        exists (q :: qs); rewrite Hw, record_calls; simpl;
        (split; [reflexivity|]); (split; [lia|]);
        destruct (fst _); try lia; trivial.
    + exists [q]. simpl. auto with arith.
Qed.

(** Brackets and qualities along the loop. *)
Lemma quality_loop_reach n :
  forall k minQ maxQ bestBlob w,
    (k + n <= 10)%nat -> In (minQ, maxQ) (reach k) ->
    exists qs,
      calls (snd (loop n minQ maxQ bestBlob w))
      = calls w ++ map (Encode (canvas w) format) qs
      /\ Forall (fun q => strictly_inside q = true) qs
      /\ forall minQ' maxQ' bestBlob',
           fst (loop n minQ maxQ bestBlob w)
           = Resolved (minQ', maxQ', bestBlob') ->
           In (minQ', maxQ') (reach (k + n))
           /\ forall b, bestBlob' = Some b ->
                bestBlob = Some b \/
                exists q, In q qs
                          /\ encode_canvas (canvas w) format q = Some b
                          /\ (size b <=? target) = true.
Proof.
  induction n as [|n IH]; intros k minQ maxQ bestBlob w Hk Hin.
  - exists []. simpl. rewrite app_nil_r, Nat.add_0_r.
    repeat split; trivial.
    + injection H as <- <- <-. trivial.
    + injection H as <- <- <-. auto.
  - rewrite quality_loop_turn. cbv zeta.
    pose proof (reach_inside k _ ltac:(lia) Hin) as Hq. simpl in Hq.
    set (q := (minQ + maxQ) / JS.lit_2) in *.
    replace (k + S n)%nat with (S k + n)%nat by lia.
    destruct (encode_canvas (canvas w) format q) as [b|] eqn:Hb.
    + destruct (size b <=? target) eqn:Hfit.
      * destruct (IH (S k) q maxQ (Some b)
                    (record (Encode (canvas w) format q) w)
                    ltac:(lia) (reach_bisect k (minQ, maxQ) true Hin))
          as (qs & Hw & Hall & Hres).
        exists (q :: qs). rewrite Hw, record_calls. simpl.
        repeat split; auto.
        -- apply (Hres _ _ _ H).
        -- intros b' Hb'. right.
           destruct (Hres _ _ _ H) as [_ Hbest].
           destruct (Hbest b' Hb') as [E|(q' & Hq' & He & Hs)].
           ++ injection E as <-. exists q. auto.
           ++ exists q'. auto.
      * destruct (IH (S k) minQ q bestBlob
                    (record (Encode (canvas w) format q) w)
                    ltac:(lia) (reach_bisect k (minQ, maxQ) false Hin))
          as (qs & Hw & Hall & Hres).
        exists (q :: qs). rewrite Hw, record_calls. simpl.
        repeat split; auto.
        -- apply (Hres _ _ _ H).
        -- intros b' Hb'.
           destruct (Hres _ _ _ H) as [_ Hbest].
           destruct (Hbest b' Hb') as [E|(q' & Hq' & He & Hs)]; auto.
           right. exists q'. auto.
    + exists [q]. simpl. repeat split; auto; discriminate.
Qed.

(** [bestBlob] stays [null] exactly when every attempt is over the
    budget, and [minQuality] does not move until an attempt fits. *)
Lemma quality_loop_best n :
  forall minQ maxQ bestBlob w,
  exists qs,
    snd (loop n minQ maxQ bestBlob w)
    = {| canvas := canvas w;
         calls := calls w ++ map (Encode (canvas w) format) qs |}
    /\ forall minQ' maxQ' bestBlob',
         fst (loop n minQ maxQ bestBlob w)
         = Resolved (minQ', maxQ', bestBlob') ->
         (bestBlob' = None <->
          bestBlob = None /\
          Forall (over_budget target) (map (Encode (canvas w) format) qs))
         /\ (bestBlob' = None -> minQ' = minQ)
         /\ length qs = n.
Proof.
  induction n as [|n IH]; intros minQ maxQ bestBlob w.
  - exists []. destruct w as [c l]. simpl. rewrite app_nil_r. split; trivial.
    intros ? ? ? [= <- <- <-]. intuition.
  - rewrite quality_loop_turn. cbv zeta.
    set (q := (minQ + maxQ) / JS.lit_2).
    destruct (encode_canvas (canvas w) format q) as [b|] eqn:Hb.
    + destruct (size b <=? target) eqn:Hfit.
      * destruct (IH q maxQ (Some b) (record (Encode (canvas w) format q) w))
          as (qs & Hw & Hres).
        exists (q :: qs). rewrite Hw, record_calls. simpl.
        split; trivial. intros mn mx bb Hr.
        destruct (Hres _ _ _ Hr) as [[H1 _] [_ Hlen]].
        split; [split|split]; try intros H.
        -- destruct (H1 H) as [? _]. discriminate.
        -- destruct H as [_ H]. apply Forall_inv in H.
           destruct H as [b' [E F]]. congruence.
        -- destruct (H1 H) as [? _]. discriminate.
        -- simpl. lia.
      * destruct (IH minQ q bestBlob (record (Encode (canvas w) format q) w))
          as (qs & Hw & Hres).
        exists (q :: qs). rewrite Hw, record_calls. simpl.
        split; trivial. intros mn mx bb Hr.
        destruct (Hres _ _ _ Hr) as [[H1 H2] [H3 Hlen]].
        split; [split|split]; trivial.
        -- intros H. destruct (H1 H) as [? ?]. split; trivial.
           constructor; trivial. exists b. auto.
        -- intros [? H]. inversion H; subst. auto.
        -- simpl. lia.
    + exists [q]. simpl. split; trivial. discriminate.
Qed.

(** The loop computes what the design calls the lossy search. *)
Lemma quality_loop_design n :
  forall (s : Design.Lossy) w,
    match Design.lossy_search target (encode_canvas (canvas w) format) n s
    with
    | Some s' =>
        exists qs,
          Design.tried s' = Design.tried s ++ qs
          /\ length qs = n
          /\ loop n (Design.minQuality s) (Design.maxQuality s)
               (Design.best s) w
             = (Resolved (Design.minQuality s', Design.maxQuality s',
                          Design.best s'),
                {| canvas := canvas w;
                   calls := calls w ++ map (Encode (canvas w) format) qs |})
    | None =>
        fst (loop n (Design.minQuality s) (Design.maxQuality s)
               (Design.best s) w)
        = Rejected EncodeError
    end.
Proof.
  induction n as [|n IH]; intros s w.
  - exists []. destruct w as [c l]. simpl. rewrite !app_nil_r. auto.
  - cbn [Design.lossy_search]. unfold Design.lossy_iteration.
    rewrite quality_loop_turn. cbv zeta.
    set (q := (Design.minQuality s + Design.maxQuality s) / JS.lit_2).
    destruct (encode_canvas (canvas w) format q) as [b|]; [|reflexivity].
    destruct (size b <=? target);
      match goal with
      | |- match Design.lossy_search _ _ _ ?s1 with _ => _ end =>
          specialize (IH s1 (record (Encode (canvas w) format q) w));
          cbn [Design.minQuality Design.maxQuality Design.best Design.tried]
            in IH;
          change (canvas (record (Encode (canvas w) format q) w))
            with (canvas w) in IH;
          destruct (Design.lossy_search target _ n s1) as [s'|]
      end; trivial;
      destruct IH as (qs & Ht & Hlen & Hrun);
      exists (q :: qs); rewrite Hrun, Ht, record_calls, <- app_assoc;
      simpl; auto.
Qed.

End QualityLoop.

Arguments quality_loop : simpl never.

(* ===================================================================== *)
(** ** The dimension loop *)
(* ===================================================================== *)

Lemma scale_seq_S k : scale_seq (S k) = scale_seq k - JS.lit_0_05.
Proof. reflexivity. Qed.

(** After eighteen decrements the scale is not above 0.1 any more. *)
Lemma scale_floor : (scale_seq 18 >? JS.lit_0_1) = false.
Proof. vm_compute. reflexivity. Qed.

(** The nineteen scales are above 0.05 and not below the last one. *)
Lemma scale_seq_checked :
  forallb (fun k => (JS.lit_0_05 <? scale_seq k)
                    && (scale_seq 18 <=? scale_seq k)
                    && (scale_seq k <=? JS.lit_1))
          (seq 0 19) = true.
Proof. vm_compute. reflexivity. Qed.

Lemma scale_seq_bounds k :
  (k <= 18)%nat ->
  (JS.lit_0_05 <? scale_seq k) = true
  /\ (scale_seq 18 <=? scale_seq k) = true
  /\ (scale_seq k <=? JS.lit_1) = true.
Proof.
  intros Hk. pose proof scale_seq_checked as H.
  rewrite forallb_forall in H.
  specialize (H k ltac:(apply in_seq; lia)).
  apply andb_true_iff in H. destruct H as [H H3].
  apply andb_true_iff in H. tauto.
Qed.

Section PngLoop.

Context {browser : Browser}.
Variable img : Image.
Variable target : JS.number.
Variable format : TargetFormat.

Lemma resample_from_source scale :
  let c := resampled_canvas img scale in
  Forall (from_source img)
    [Draw img (Some (cwidth c, cheight c)) (cleared (cwidth c) (cheight c));
     Encode c format JS.lit_1].
Proof.
  cbv zeta. apply Forall_cons; [|apply Forall_cons; [|apply Forall_nil]].
  - simpl. auto.
  - simpl. eexists. split; [reflexivity|]. right. reflexivity.
Qed.

(** Whatever the fuel, every turn draws [img] itself on a cleared
    canvas and encodes that canvas. *)
Lemma png_loop_from_source fuel :
  forall currentBlob scale w,
  exists l,
    calls (snd (png_loop fuel img target format currentBlob scale w))
    = calls w ++ l
    /\ Forall (from_source img) l.
Proof.
  induction fuel as [|fuel IH]; intros b scale w.
  - rewrite png_loop_out. exists [].
    destruct (_ && _); simpl; rewrite app_nil_r; auto.
  - rewrite png_loop_turn. destruct (_ && _).
    + cbv zeta.
      pose proof (resample_from_source (scale - JS.lit_0_05)) as Hs.
      cbv zeta in Hs.
      set (c := resampled_canvas img (scale - JS.lit_0_05)) in *.
      destruct (encode_canvas c format JS.lit_1) as [b1|].
      * destruct (IH b1 (scale - JS.lit_0_05)
                    {| canvas := c;
                       calls := calls w ++
                         [Draw img (Some (cwidth c, cheight c))
                            (cleared (cwidth c) (cheight c));
                          Encode c format JS.lit_1] |})
          as (l & Hl & Hall).
        eexists. rewrite Hl. cbn [calls]. rewrite <- app_assoc.
        split; [reflexivity|]. apply Forall_app. auto.
      * eexists. cbn [snd calls]. split; [reflexivity|]. exact Hs.
    + exists []. simpl. rewrite app_nil_r. auto.
Qed.

(** With eighteen turns available from scale 1.0 the loop ends, at
    one of the nineteen scales; the blob it ends with is the encoding
    of the canvas it leaves. *)
Lemma png_loop_run fuel :
  forall k currentBlob w,
    (k <= 18)%nat -> (18 <= fuel + k)%nat ->
    match fst (png_loop fuel img target format currentBlob (scale_seq k) w) with
    | Resolved (b, scale) =>
        exists k', (k <= k' <= 18)%nat /\ scale = scale_seq k' /\
          let w' := snd (png_loop fuel img target format currentBlob
                           (scale_seq k) w) in
          ((k' = k /\ b = currentBlob /\ w' = w) \/
           ((k < k')%nat /\
            canvas w' = resampled_canvas img (scale_seq k') /\
            encode_canvas (canvas w') format JS.lit_1 = Some b /\
            exists l, calls w' = l ++ [Encode (canvas w') format JS.lit_1]))
    | Rejected e => e = EncodeError
    | Pending => False
    end.
Proof.
  induction fuel as [|fuel IH]; intros k b w Hk Hfuel.
  - assert (k = 18)%nat as -> by lia.
    rewrite png_loop_out, scale_floor, andb_false_r. simpl.
    exists 18%nat. split; [lia|]. auto.
  - rewrite png_loop_turn.
    destruct (_ && _) eqn:Hcond.
    + assert (k <> 18)%nat as Hk'.
      { intros ->. rewrite scale_floor, andb_false_r in Hcond.
        discriminate. }
      cbv zeta. rewrite <- scale_seq_S.
      set (c := resampled_canvas img (scale_seq (S k))).
      destruct (encode_canvas c format JS.lit_1) as [b1|] eqn:Hb1;
        [|reflexivity].
      set (w1 := {| canvas := c; calls := _ |}).
      specialize (IH (S k) b1 w1 ltac:(lia) ltac:(lia)).
      destruct (png_loop fuel img target format b1 (scale_seq (S k)) w1)
        as [[[b' scale']|e|] w'] eqn:Hrun; simpl in *; trivial.
      destruct IH as (k' & Hk'' & -> & [(-> & -> & ->)|(Hlt & Hc & He & Hl)]).
      * exists (S k). split; [lia|]. split; trivial. right.
        split; [lia|]. subst w1. simpl. repeat split; trivial.
        eexists (_ ++ [_]). rewrite <- app_assoc. reflexivity.
      * exists k'. split; [lia|]. split; trivial. right.
        split; [lia|]. auto.
    + simpl. exists k. split; [lia|]. auto.
Qed.

(** Fuel beyond the eighteen turns is never used. *)
Lemma png_loop_fuel fuel :
  forall k currentBlob w,
    (k <= 18)%nat -> (18 <= fuel + k)%nat ->
    png_loop fuel img target format currentBlob (scale_seq k) w
    = png_loop (18 - k) img target format currentBlob (scale_seq k) w.
Proof.
  induction fuel as [|fuel IH]; intros k b w Hk Hfuel.
  - replace (18 - k)%nat with 0%nat by lia. reflexivity.
  - rewrite png_loop_turn.
    destruct (_ && _) eqn:Hcond.
    + assert (k <> 18)%nat as Hk'.
      { intros ->. rewrite scale_floor, andb_false_r in Hcond.
        discriminate. }
      replace (18 - k)%nat with (S (18 - S k))%nat by lia.
      rewrite png_loop_turn, Hcond. cbv zeta. rewrite <- scale_seq_S.
      destruct (encode_canvas _ format JS.lit_1); [|reflexivity].
      apply IH; lia.
    + destruct (18 - k)%nat.
      * rewrite png_loop_out, Hcond. reflexivity.
      * rewrite png_loop_turn, Hcond. reflexivity.
Qed.

(** The loop computes what the design calls the lossless search. *)
Lemma png_loop_design fuel :
  forall currentBlob scale w,
    fst (png_loop fuel img target format currentBlob scale w)
    = match Design.lossless_search target
              (fun s => encode_canvas (resampled_canvas img s) format JS.lit_1)
              fuel currentBlob scale with
      | None => Pending
      | Some None => Rejected EncodeError
      | Some (Some r) => Resolved r
      end.
Proof.
  induction fuel as [|fuel IH]; intros b scale w.
  - rewrite png_loop_out. cbn [Design.lossless_search].
    destruct (_ && _); reflexivity.
  - rewrite png_loop_turn. cbn [Design.lossless_search].
    destruct (_ && _); [|reflexivity]. cbv zeta.
    destruct (encode_canvas _ format JS.lit_1); [|reflexivity].
    apply IH.
Qed.

End PngLoop.

Arguments png_loop : simpl never.

(* ===================================================================== *)
(** ** The two branches of [processImage] *)
(* ===================================================================== *)

Section Branches.

Context {browser : Browser}.

Lemma processImage_no_context fuel file kb format w img :
  decode file = Some img -> context2d = false ->
  processImage fuel file kb format w
  = (Rejected ContextError,
     {| canvas := cleared 300 150; calls := calls w ++ [Decode file] |}).
Proof.
  intros Hd Hc. unfold processImage.
  cbv beta iota zeta delta
    [await loadImage getContext createCanvas reject record canvas calls].
  rewrite Hd, Hc. reflexivity.
Qed.

Lemma lossy_branch_unfold kb format w :
  lossy_branch kb format w
  = match quality_loop 10 (kb * JS.lit_1024) format JS.lit_0 JS.lit_1 None w with
    | (Resolved st, w') => finish kb format st w'
    | (Rejected e, w') => (Rejected e, w')
    | (Pending, w') => (Pending, w')
    end.
Proof. reflexivity. Qed.

Lemma finish_best kb format minQ maxQ b w :
  finish kb format (minQ, maxQ, Some b) w
  = (Resolved {| blob := b; finalSizeKB := size b / JS.lit_1024 |}, w).
Proof. reflexivity. Qed.

Lemma finish_fallback kb format minQ maxQ w :
  finish kb format (minQ, maxQ, None) w
  = let w' := record (Encode (canvas w) format minQ) w in
    match encode_canvas (canvas w) format minQ with
    | None => (Rejected EncodeError, w')
    | Some fb =>
        (if size fb >? kb * JS.lit_1024 * JS.lit_1_2
         then Rejected (UnreachableBudget kb)
         else Resolved {| blob := fb; finalSizeKB := size fb / JS.lit_1024 |},
         w')
    end.
Proof.
  unfold finish, await, getCanvasBlob, encode_canvas. cbv zeta.
  destruct (toBlob _ _ _ _ _) as [fb|]; trivial.
  destruct (size fb >? _); reflexivity.
Qed.

Lemma png_branch_unfold fuel img kb w :
  png_branch fuel img kb w
  = let w' := record (Encode (canvas w) image_png JS.lit_1) w in
    match encode_canvas (canvas w) image_png JS.lit_1 with
    | None => (Rejected EncodeError, w')
    | Some first =>
        match png_loop fuel img (kb * JS.lit_1024) image_png first JS.lit_1 w'
        with
        | (Resolved r, w'') =>
            (Resolved {| blob := fst r;
                         finalSizeKB := size (fst r) / JS.lit_1024 |}, w'')
        | (Rejected e, w'') => (Rejected e, w'')
        | (Pending, w'') => (Pending, w'')
        end
    end.
Proof.
  unfold png_branch, await, getCanvasBlob, encode_canvas, resolve. cbv zeta.
  destruct (toBlob _ _ _ _ _) as [first|]; reflexivity.
Qed.

Lemma png_branch_fuel fuel img kb w :
  (18 <= fuel)%nat -> png_branch fuel img kb w = png_branch 18 img kb w.
Proof.
  intros Hfuel. rewrite !png_branch_unfold. cbv zeta.
  destruct (encode_canvas _ _ _) as [first|]; [|reflexivity].
  change JS.lit_1 with (scale_seq 0) at 2 4.
  rewrite (png_loop_fuel img (kb * JS.lit_1024) image_png fuel 0)
    by lia.
  reflexivity.
Qed.

Lemma framed_png_branch fuel img kb : framed (png_branch fuel img kb).
Proof.
  unfold png_branch.
  repeat (apply framed_await; [|intros ?]);
    auto using framed_getCanvasBlob, framed_png_loop, framed_resolve.
Qed.

Lemma framed_finish kb format st : framed (finish kb format st).
Proof.
  destruct st as [[minQ maxQ] [b|]]; unfold finish.
  - apply framed_resolve.
  - apply framed_await; [apply framed_getCanvasBlob|]. intros fb.
    destruct (size fb >? _); [apply framed_reject | apply framed_resolve].
Qed.

Lemma framed_lossy_branch kb format : framed (lossy_branch kb format).
Proof.
  unfold lossy_branch. apply framed_await.
  - apply framed_quality_loop.
  - intros st. apply framed_finish.
Qed.

Lemma encodes_app l1 l2 : encodes (l1 ++ l2) = (encodes l1 + encodes l2)%nat.
Proof. unfold encodes. rewrite filter_app, length_app. reflexivity. Qed.

Lemma encodes_map c format qs :
  encodes (map (Encode c format) qs) = length qs.
Proof.
  unfold encodes. induction qs as [|q qs IH]; simpl; auto.
Qed.

End Branches.

(* ===================================================================== *)
(** ** Properties of [processImage] *)
(* ===================================================================== *)

Section Claims.

Context {browser : Browser}.

(** C7.  When the bytes of the file do not decode to an image, the
    promise of [processImage] is rejected with the decoder's error
    and the only call made to the browser is the load itself: the
    encoder is not called. *)
Theorem undecodable_input_is_rejected fuel file kb format w :
  decode file = None ->
  settled (processImage fuel file kb format) w = Rejected DecodeError
  /\ calls (world_after (processImage fuel file kb format) w)
     = calls w ++ [Decode file]
  /\ encodes (calls (world_after (processImage fuel file kb format) w))
     = encodes (calls w).
Proof.
  intros H. unfold settled, world_after.
  rewrite (processImage_undecodable _ _ _ _ _ H). simpl.
  repeat split. rewrite encodes_app. unfold encodes. simpl. lia.
Qed.

(** C8.  [processImage] is deterministic over the browser interface:
    two runs on the same file, target size and format, started in
    any two worlds (any canvas, any earlier trace), settle in the
    same way -- the same blob and the same reported size when they
    resolve, the same error when they are rejected -- and make the
    same calls. *)
Theorem processImage_deterministic fuel file kb format w1 w2 :
  settled (processImage fuel file kb format) w1
  = settled (processImage fuel file kb format) w2
  /\ exists l,
       calls (world_after (processImage fuel file kb format) w1)
       = calls w1 ++ l
       /\ calls (world_after (processImage fuel file kb format) w2)
          = calls w2 ++ l.
Proof.
  unfold settled, world_after.
  destruct (decode file) as [img|] eqn:Hd.
  - destruct context2d eqn:Hc.
    + assert (E : exists p : Promise Result,
                 framed p /\
                 forall w, processImage fuel file kb format w
                           = p (loaded file img w)).
      { destruct (is_png format) eqn:Hf.
        - exists (png_branch fuel img kb). split.
          + apply framed_png_branch.
          + intros w. destruct format; try discriminate.
            apply processImage_png; trivial.
        - exists (lossy_branch kb format). split.
          + apply framed_lossy_branch.
          + intros w. apply processImage_lossy; trivial. }
      destruct E as (p & Hp & E). rewrite !E.
      rewrite (Hp (loaded file img w1)), (Hp (loaded file img w2)).
      simpl. split; trivial.
      eexists. unfold loaded. simpl. rewrite <- !app_assoc.
      split; reflexivity.
    + rewrite !(processImage_no_context _ _ _ _ _ _ Hd Hc). simpl.
      split; trivial. eexists. split; reflexivity.
  - rewrite !(processImage_undecodable _ _ _ _ _ Hd). simpl.
    split; trivial. eexists. split; reflexivity.
Qed.

(** What the lossy branch adds to the trace: the attempts of the
    loop and, when it resolves without a best blob, the fallback. *)
Lemma lossy_branch_calls kb format w :
  exists qs rest,
    calls (snd (lossy_branch kb format w))
    = calls w ++ map (Encode (canvas w) format) qs ++ rest
    /\ (length qs <= 10)%nat
    /\ (rest = [] \/ exists q, rest = [Encode (canvas w) format q])
    /\ (forall r, fst (lossy_branch kb format w) = Resolved r ->
                  length qs = 10%nat)
    /\ (forall minQ maxQ b,
          fst (quality_loop 10 (kb * JS.lit_1024) format
                 JS.lit_0 JS.lit_1 None w)
          = Resolved (minQ, maxQ, Some b) ->
          length qs = 10%nat /\ rest = []).
Proof.
  rewrite lossy_branch_unfold.
  destruct (quality_loop_trace (kb * JS.lit_1024) format 10
              JS.lit_0 JS.lit_1 None w) as (qs & Hw & Hlen & Hres).
  destruct (quality_loop 10 _ format JS.lit_0 JS.lit_1 None w)
    as [[[[minQ maxQ] [b|]]|e|] w'] eqn:Hrun; cbn [fst snd] in *; subst w'.
  - exists qs, []. rewrite finish_best, app_nil_r. cbn [fst snd calls].
    repeat split; auto.
  - exists qs, [Encode (canvas w) format minQ].
    rewrite finish_fallback. cbv zeta. cbn [canvas].
    destruct (encode_canvas (canvas w) format minQ) as [fb|];
      unfold record; cbn [fst snd calls canvas];
      rewrite <- app_assoc;
      (split; [reflexivity|]); (split; [trivial|]);
      (split; [right; eexists; reflexivity|]);
      split; auto; discriminate.
  - exists qs, []. rewrite app_nil_r. cbn [fst snd calls].
    repeat split; auto; discriminate.
  - contradiction.
Qed.

(** C5, as amended.  For a lossy format and whatever the image,
    [processImage] calls the encoder at most eleven times: ten times
    in the loop and once more for the fallback when the loop ends
    without a best blob.  A run that resolves made at least ten
    calls, and exactly ten when the loop found a best blob. *)
Theorem encoder_calls_bounded fuel file kb format w :
  is_png format = false ->
  (encodes (calls (world_after (processImage fuel file kb format) w))
   <= encodes (calls w) + 11)%nat
  /\ (forall r,
        settled (processImage fuel file kb format) w = Resolved r ->
        (encodes (calls w) + 10
         <= encodes (calls (world_after (processImage fuel file kb format) w)))%nat)
  /\ (forall img minQ maxQ b,
        decode file = Some img -> context2d = true ->
        settled (quality_loop 10 (kb * JS.lit_1024) format
                   JS.lit_0 JS.lit_1 None) (loaded file img w)
        = Resolved (minQ, maxQ, Some b) ->
        encodes (calls (world_after (processImage fuel file kb format) w))
        = (encodes (calls w) + 10)%nat).
Proof.
  intros Hf. unfold settled, world_after.
  destruct (decode file) as [img|] eqn:Hd.
  - destruct context2d eqn:Hc.
    + rewrite (processImage_lossy _ _ _ _ _ _ Hf Hd Hc).
      destruct (lossy_branch_calls kb format (loaded file img w))
        as (qs & rest & Hw & Hlen & Hrest & Hres & Hbest).
      assert (Hcount :
                encodes (calls (snd (lossy_branch kb format (loaded file img w))))
                = (encodes (calls w) + length qs + encodes rest)%nat).
      { rewrite Hw. unfold loaded at 1. cbn [calls].
        rewrite !encodes_app, encodes_map.
        change (encodes [Decode file; Draw img None _]) with 0%nat. lia. }
      assert (encodes rest <= 1)%nat
        by (destruct Hrest as [->|[q ->]]; unfold encodes; simpl; lia).
      rewrite Hcount. split; [lia|]. split.
      * intros r Hr. rewrite (Hres r Hr). lia.
      * intros img' minQ maxQ b [= <-] _ Hr.
        destruct (Hbest _ _ _ Hr) as [-> ->].
        change (encodes []) with 0%nat. lia.
    + rewrite (processImage_no_context _ _ _ _ _ _ Hd Hc). simpl.
      rewrite encodes_app. unfold encodes. simpl.
      split; [lia|]. split; [discriminate|]. discriminate.
  - rewrite (processImage_undecodable _ _ _ _ _ Hd). simpl.
    rewrite encodes_app. unfold encodes. simpl.
    split; [lia|]. split; [discriminate|]. discriminate.
Qed.

(** C6.  In the binary search started from [minQuality = 0] and
    [maxQuality = 1], after any number [n <= 10] of turns the pair
    satisfies [0 <= minQuality < maxQuality <= 1]; every quality
    handed to the encoder by these turns is strictly between 0 and
    1; and a best blob found by the loop is the encoding, within the
    budget, at one of these qualities. *)
Theorem quality_bracket_invariant n target format w :
  (n <= 10)%nat ->
  exists qs,
    calls (world_after
             (quality_loop n target format JS.lit_0 JS.lit_1 None) w)
    = calls w ++ map (Encode (canvas w) format) qs
    /\ Forall (fun q => strictly_inside q = true) qs
    /\ forall minQ maxQ bestBlob,
         settled (quality_loop n target format JS.lit_0 JS.lit_1 None) w
         = Resolved (minQ, maxQ, bestBlob) ->
         bracket (minQ, maxQ) = true
         /\ forall b, bestBlob = Some b ->
              exists q, In q qs
                        /\ strictly_inside q = true
                        /\ encode_canvas (canvas w) format q = Some b
                        /\ (size b <=? target) = true.
Proof.
  intros Hn. unfold settled, world_after.
  destruct (quality_loop_reach target format n 0 JS.lit_0 JS.lit_1 None w
              ltac:(lia) ltac:(left; reflexivity))
    as (qs & Hw & Hall & Hres).
  exists qs. split; trivial. split; trivial.
  intros minQ maxQ bestBlob Hr.
  destruct (Hres _ _ _ Hr) as [Hin Hbest]. split.
  - apply (reach_bracket (0 + n)); trivial.
  - intros b Hb. destruct (Hbest b Hb) as [E|(q & Hq & He & Hs)];
      [discriminate|].
    exists q. repeat split; trivial.
    rewrite Forall_forall in Hall. auto.
Qed.

(** The budget with its tolerance is a proper number as soon as the
    target size is. *)
Lemma tolerance_not_nan kb :
  JS.is_nan kb = false ->
  JS.is_nan (kb * JS.lit_1024 * JS.lit_1_2) = false.
Proof.
  intros H. apply mul_finite_not_nan.
  change JS.lit_1024 with (S754_finite false 4503599627370496 (-42)).
  apply mul_finite_not_nan, H.
Qed.

(** Every way for [processImage] to resolve builds its answer with
    [finalSizeKB = blob.size / 1024]. *)
Lemma reported_size fuel file kb format w r :
  settled (processImage fuel file kb format) w = Resolved r ->
  finalSizeKB r = size (blob r) / JS.lit_1024.
Proof.
  unfold settled.
  destruct (decode file) as [img|] eqn:Hd;
    [|rewrite (processImage_undecodable _ _ _ _ _ Hd); discriminate].
  destruct context2d eqn:Hc;
    [|rewrite (processImage_no_context _ _ _ _ _ _ Hd Hc); discriminate].
  destruct (is_png format) eqn:Hf.
  - destruct format; try discriminate.
    rewrite (processImage_png _ _ _ _ _ Hd Hc), png_branch_unfold. cbv zeta.
    destruct (encode_canvas _ _ _) as [first|]; [|discriminate].
    destruct (png_loop _ _ _ _ _ _ _) as [[[b sc]|e|] w']; try discriminate.
    intros [= <-]. reflexivity.
  - rewrite (processImage_lossy _ _ _ _ _ _ Hf Hd Hc), lossy_branch_unfold.
    destruct (quality_loop _ _ _ _ _ _ _) as [[[[minQ maxQ] [b|]]|e|] w'];
      try discriminate.
    + rewrite finish_best. intros [= <-]. reflexivity.
    + rewrite finish_fallback. cbv zeta.
      destruct (encode_canvas _ _ _) as [fb|]; [|discriminate].
      cbn [fst]. destruct (size fb >? _); [discriminate|].
      intros [= <-]. reflexivity.
Qed.

(** C10.  (i) A resolved [processImage] reports [finalSizeKB] as the
    byte size of the returned blob divided by 1024.  (ii) In the
    lossy search the ten attempts are compared with
    [targetSizeKB * 1024]; [bestBlob] is still [null] after the loop
    exactly when each of the ten attempts produced a blob over that
    budget, and then [minQuality] is still exactly 0, so that the
    call that follows the ten attempts is the fallback encoding of
    the same canvas at quality 0. *)
Theorem fallback_quality_and_reported_size fuel file kb format w :
  (forall r,
     settled (processImage fuel file kb format) w = Resolved r ->
     finalSizeKB r = size (blob r) / JS.lit_1024)
  /\ (is_png format = false ->
      forall img, decode file = Some img -> context2d = true ->
      forall minQ maxQ bestBlob,
        settled (quality_loop 10 (kb * JS.lit_1024) format
                   JS.lit_0 JS.lit_1 None) (loaded file img w)
        = Resolved (minQ, maxQ, bestBlob) ->
        exists attempts,
          calls (world_after
                   (quality_loop 10 (kb * JS.lit_1024) format
                      JS.lit_0 JS.lit_1 None) (loaded file img w))
          = calls (loaded file img w) ++ attempts
          /\ length attempts = 10%nat
          /\ (bestBlob = None <->
              Forall (over_budget (kb * JS.lit_1024)) attempts)
          /\ (bestBlob = None ->
              minQ = JS.lit_0
              /\ calls (world_after (processImage fuel file kb format) w)
                 = calls (loaded file img w) ++ attempts
                   ++ [Encode (source_canvas img) format JS.lit_0])).
Proof.
  split; [intros r; apply reported_size|].
  intros Hf img Hd Hc minQ maxQ bestBlob Hr.
  unfold settled, world_after in *.
  destruct (quality_loop_best (kb * JS.lit_1024) format 10
              JS.lit_0 JS.lit_1 None (loaded file img w))
    as (qs & Hw & Hres).
  destruct (Hres _ _ _ Hr) as [Hiff [Hmin Hlen]].
  exists (map (Encode (canvas (loaded file img w)) format) qs).
  split; [rewrite Hw; reflexivity|].
  split; [rewrite length_map; exact Hlen|].
  split; [tauto|]. intros ->. split; [auto|].
  rewrite (Hmin eq_refl) in Hr.
  rewrite (processImage_lossy _ _ _ _ _ _ Hf Hd Hc), lossy_branch_unfold.
  destruct (quality_loop _ _ _ _ _ _ _) as [st w'].
  cbn [fst snd] in *. subst st w'.
  rewrite finish_fallback. cbv zeta. cbn [canvas loaded].
  destruct (encode_canvas _ _ _); unfold record; cbn [snd calls canvas];
    rewrite <- app_assoc; reflexivity.
Qed.

(** C2.  For a lossy format and a target size that is a number (not
    NaN), a resolved [processImage] returns a blob whose size is
    within [targetSizeKB * 1024], or else -- only when each of the
    ten attempts produced a blob over that budget -- the fallback
    encoding at the final [minQuality], whose size is within
    [targetSizeKB * 1024 * 1.2].  When the fallback is larger than
    that, the promise is rejected with the budget error, and this is
    the only way to get that error. *)
Theorem lossy_result_within_budget fuel file kb format w img :
  is_png format = false ->
  decode file = Some img -> context2d = true ->
  JS.is_nan kb = false ->
  let budget := kb * JS.lit_1024 in
  let search := quality_loop 10 budget format JS.lit_0 JS.lit_1 None in
  let started := loaded file img w in
  (forall r,
     settled (processImage fuel file kb format) w = Resolved r ->
     (size (blob r) <=? budget) = true
     \/ exists minQ maxQ attempts,
          settled search started = Resolved (minQ, maxQ, None)
          /\ calls (world_after search started) = calls started ++ attempts
          /\ length attempts = 10%nat
          /\ Forall (over_budget budget) attempts
          /\ encode_canvas (source_canvas img) format minQ = Some (blob r)
          /\ (size (blob r) <=? budget * JS.lit_1_2) = true)
  /\ (forall minQ maxQ fallbackBlob,
        settled search started = Resolved (minQ, maxQ, None) ->
        encode_canvas (source_canvas img) format minQ = Some fallbackBlob ->
        (size fallbackBlob >? budget * JS.lit_1_2) = true ->
        settled (processImage fuel file kb format) w
        = Rejected (UnreachableBudget kb))
  /\ (forall kb',
        settled (processImage fuel file kb format) w
        = Rejected (UnreachableBudget kb') ->
        kb' = kb
        /\ exists minQ maxQ fallbackBlob,
             settled search started = Resolved (minQ, maxQ, None)
             /\ encode_canvas (source_canvas img) format minQ
                = Some fallbackBlob
             /\ (size fallbackBlob >? budget * JS.lit_1_2) = true).
Proof.
  intros Hf Hd Hc Hnan. cbv zeta. unfold settled, world_after.
  destruct (quality_loop_best (kb * JS.lit_1024) format 10
              JS.lit_0 JS.lit_1 None (loaded file img w))
    as (qs & Hw & Hbest).
  destruct (quality_loop_reach (kb * JS.lit_1024) format 10 0
              JS.lit_0 JS.lit_1 None (loaded file img w)
              ltac:(lia) ltac:(left; reflexivity))
    as (qs' & _ & _ & Hfit).
  destruct (quality_loop_trace (kb * JS.lit_1024) format 10
              JS.lit_0 JS.lit_1 None (loaded file img w))
    as (qs'' & _ & _ & Hrej).
  rewrite (processImage_lossy _ _ _ _ _ _ Hf Hd Hc), lossy_branch_unfold.
  destruct (quality_loop _ _ _ _ _ _ _)
    as [[[[minQ maxQ] [b|]]|e|] w']; cbn [fst snd] in *; subst w'.
  - (* the loop found a blob within the budget *)
    rewrite finish_best. cbn [fst].
    split; [|split]; try discriminate.
    intros r [= <-]. left. cbn [blob].
    destruct (Hfit _ _ _ eq_refl) as [_ H].
    destruct (H b eq_refl) as [E|(q & _ & _ & Hs)];
      [discriminate | exact Hs].
  - (* no best blob: the fallback *)
    rewrite finish_fallback. cbv zeta. cbn [canvas loaded].
    destruct (Hbest _ _ _ eq_refl) as [[Hover _] [_ Hlen]].
    destruct (Hover eq_refl) as [_ Hall].
    destruct (encode_canvas (source_canvas img) format minQ) as [fb|] eqn:Hfb;
      cbn [fst].
    + destruct (size fb >? kb * JS.lit_1024 * JS.lit_1_2) eqn:Hgt.
      * split; [discriminate|]. split; [reflexivity|].
        intros kb' [= <-]. split; trivial.
        exists minQ, maxQ, fb. auto.
      * split; [|split; [|discriminate]].
        -- intros r [= <-]. right. cbn [blob].
           exists minQ, maxQ, (map (Encode (source_canvas img) format) qs).
           repeat split; trivial.
           ++ rewrite length_map. exact Hlen.
           ++ apply not_gt_le; trivial.
              ** apply size_not_nan.
              ** apply tolerance_not_nan, Hnan.
        -- intros mn mx fb' [= <- _] Hfb' Hgt'.
           rewrite Hfb in Hfb'. injection Hfb' as <-. congruence.
    + split; [discriminate|]. split; [|discriminate].
      intros mn mx fb' [= <- _] Hfb'. congruence.
  - subst e. cbn [fst]. repeat split; discriminate.
  - contradiction.
Qed.

(** C1.  For a lossy format, [processImage] runs the search of the
    design on the canvas that holds the image at its intrinsic
    width and height: exactly ten turns, each encoding that canvas
    at [(minQuality + maxQuality) / 2], starting from 0 and 1,
    recording the blob as best and raising [minQuality] when its
    size is within [targetSizeKB * 1024], lowering [maxQuality]
    otherwise.  The ten encoder calls of the trace are those of the
    design, and a best blob, when there is one after the loop, is
    what the promise resolves with.  An encoder failure during the
    search rejects the promise. *)
Theorem lossy_search_refines fuel file kb format w img :
  is_png format = false ->
  decode file = Some img -> context2d = true ->
  let cv := source_canvas img in
  let p := processImage fuel file kb format in
  cwidth cv = width img /\ cheight cv = height img /\
  match Design.lossy_search (kb * JS.lit_1024) (encode_canvas cv format)
          10 Design.lossy_start with
  | Some s =>
      length (Design.tried s) = 10%nat
      /\ exists rest,
           calls (world_after p w)
           = calls (loaded file img w)
             ++ map (Encode cv format) (Design.tried s) ++ rest
           /\ match Design.best s with
              | Some b =>
                  rest = []
                  /\ settled p w
                     = Resolved {| blob := b;
                                   finalSizeKB := size b / JS.lit_1024 |}
              | None => rest = [Encode cv format (Design.minQuality s)]
              end
  | None => settled p w = Rejected EncodeError
  end.
Proof.
  intros Hf Hd Hc. cbv zeta. unfold settled, world_after.
  split; [reflexivity|]. split; [reflexivity|].
  rewrite (processImage_lossy _ _ _ _ _ _ Hf Hd Hc), lossy_branch_unfold.
  pose proof (quality_loop_design (kb * JS.lit_1024) format 10
                Design.lossy_start (loaded file img w)) as H.
  change (canvas (loaded file img w)) with (source_canvas img) in H.
  cbn [Design.lossy_start Design.minQuality Design.maxQuality Design.best
       Design.tried app] in H.
  destruct (Design.lossy_search (kb * JS.lit_1024) _ 10 Design.lossy_start)
    as [s|].
  - destruct H as (qs & -> & Hlen & ->). split; trivial.
    destruct (Design.best s) as [b|].
    + exists []. rewrite finish_best, app_nil_r. cbn [fst snd calls]. auto.
    + exists [Encode (source_canvas img) format (Design.minQuality s)].
      rewrite finish_fallback. cbv zeta. cbn [canvas].
      destruct (encode_canvas _ _ _); unfold record; cbn [snd calls canvas];
        rewrite <- app_assoc; auto.
  - destruct (quality_loop _ _ _ _ _ _ _) as [st w']. cbn [fst] in H.
    subst st. reflexivity.
Qed.

(** C9.  Every drawing made by [processImage], in either branch,
    takes the decoded image itself as its source and a freshly
    cleared canvas as its destination, at the dimensions of that
    canvas; every encoding is that of a canvas holding this one
    drawing.  No turn draws from the outcome of an earlier turn, and
    no call changes the decoded image. *)
Theorem draws_from_decoded_source fuel file kb format w img :
  decode file = Some img ->
  exists l,
    calls (world_after (processImage fuel file kb format) w) = calls w ++ l
    /\ Forall (from_source img) l.
Proof.
  intros Hd. unfold world_after.
  assert (Hsrc : forall q, from_source img (Encode (source_canvas img) format q)).
  { intros q. exists None. split; [reflexivity|]. left. reflexivity. }
  assert (Hpre : Forall (from_source img)
                   [Decode file;
                    Draw img None (cleared (width img) (height img))]).
  { apply Forall_cons; [exact I|]. apply Forall_cons; [|apply Forall_nil].
    simpl. auto. }
  destruct context2d eqn:Hc.
  - destruct (is_png format) eqn:Hf.
    + destruct format; try discriminate.
      rewrite (processImage_png _ _ _ _ _ Hd Hc), png_branch_unfold.
      cbv zeta. change (canvas (loaded file img w)) with (source_canvas img).
      set (w1 := record _ _).
      assert (Hw1 : calls w1
                    = calls w ++
                      [Decode file;
                       Draw img None (cleared (width img) (height img));
                       Encode (source_canvas img) image_png JS.lit_1]).
      { unfold w1, record, loaded. cbn [calls canvas].
        rewrite <- app_assoc. reflexivity. }
      assert (Hall1 : Forall (from_source img)
                        [Decode file;
                         Draw img None (cleared (width img) (height img));
                         Encode (source_canvas img) image_png JS.lit_1]).
      { apply (Forall_app _ [_; _] [_]). split; trivial.
        apply Forall_cons; [apply Hsrc|apply Forall_nil]. }
      destruct (encode_canvas _ _ _) as [first|].
      * destruct (png_loop_from_source img (kb * JS.lit_1024) image_png fuel
                    first JS.lit_1 w1) as (l & Hl & Hall).
        destruct (png_loop _ _ _ _ _ _ _) as [[r|e|] w'];
          cbn [snd] in *; rewrite Hl, Hw1, <- app_assoc;
          eexists; (split; [reflexivity|]); apply Forall_app; auto.
      * cbn [snd]. rewrite Hw1. eauto.
    + rewrite (processImage_lossy _ _ _ _ _ _ Hf Hd Hc).
      destruct (lossy_branch_calls kb format (loaded file img w))
        as (qs & rest & Hw & _ & Hrest & _).
      rewrite Hw. unfold loaded at 1. cbn [calls canvas loaded].
      rewrite <- app_assoc. eexists. split; [reflexivity|].
      apply Forall_app. split; trivial. apply Forall_app. split.
      * apply Forall_forall. intros c Hin. apply in_map_iff in Hin.
        destruct Hin as (q & <- & _). apply Hsrc.
      * destruct Hrest as [->|[q ->]]; [apply Forall_nil|].
        apply Forall_cons; [apply Hsrc|apply Forall_nil].
  - rewrite (processImage_no_context _ _ _ _ _ _ Hd Hc). cbn [snd calls].
    eexists. split; [reflexivity|].
    apply Forall_cons; [exact I|apply Forall_nil].
Qed.

(** The PNG branch once its first encoding succeeded, in the terms of
    [png_loop_run]. *)
Lemma png_branch_resolved fuel file kb w img r :
  (18 <= fuel)%nat ->
  fst (png_branch fuel img kb (loaded file img w)) = Resolved r ->
  let w' := snd (png_branch fuel img kb (loaded file img w)) in
  exists k,
    (k <= 18)%nat
    /\ encode_canvas (canvas w') image_png JS.lit_1 = Some (blob r)
    /\ (exists l, calls w' = l ++ [Encode (canvas w') image_png JS.lit_1])
    /\ ((k = 0%nat /\ canvas w' = source_canvas img)
        \/ ((0 < k)%nat /\ canvas w' = resampled_canvas img (scale_seq k))).
Proof.
  intros Hfuel. rewrite png_branch_unfold. cbv zeta.
  change (canvas (loaded file img w)) with (source_canvas img).
  destruct (encode_canvas (source_canvas img) image_png JS.lit_1)
    as [first|] eqn:Hfirst; [|discriminate].
  set (w1 := record _ _).
  pose proof (png_loop_run img (kb * JS.lit_1024) image_png fuel 0 first w1
                ltac:(lia) ltac:(lia)) as Hrun.
  change (scale_seq 0) with JS.lit_1 in Hrun.
  destruct (png_loop _ _ _ _ _ _ _) as [[[b scale]|e|] w']; cbn [fst snd] in *;
    try discriminate.
  intros [= <-]. cbn [blob].
  destruct Hrun as (k & Hk & _ & [(-> & -> & ->)|(Hlt & Hc & He & Hl)]).
  - exists 0%nat. split; [lia|]. split; [exact Hfirst|]. split.
    + eexists. reflexivity.
    + left. auto.
  - exists k. split; [lia|]. split; [exact He|]. split; [exact Hl|].
    right. auto.
Qed.

(** C3.  For PNG, [processImage] runs the lossless search of the
    design: one encoding of the image at its original dimensions,
    at scale 1.0, then, while the size is over [targetSizeKB * 1024]
    and the scale is above 0.1, a decrement of the scale by 0.05, a
    resampling of the image at the rounded dimensions and a new
    encoding.  With eighteen turns of fuel or more the search ends,
    and fuel beyond eighteen changes nothing.
    The promise resolves with the blob produced last -- the encoding
    of the canvas as the loop leaves it, whether or not it fits --
    or is rejected by the encoder; it is never rejected for the
    budget. *)
Theorem lossless_search_refines fuel file kb w img :
  decode file = Some img -> context2d = true ->
  (18 <= fuel)%nat ->
  let budget := kb * JS.lit_1024 in
  let p := processImage fuel file kb image_png in
  let resample_encode :=
    fun scale => encode_canvas (resampled_canvas img scale) image_png JS.lit_1 in
  p w = processImage 18 file kb image_png w
  /\ settled p w <> Pending
  /\ (forall kb', settled p w <> Rejected (UnreachableBudget kb'))
  /\ match encode_canvas (source_canvas img) image_png JS.lit_1 with
     | None => settled p w = Rejected EncodeError
     | Some first =>
         match Design.lossless_search budget resample_encode
                 fuel first JS.lit_1 with
         | Some (Some (b, _)) =>
             settled p w
             = Resolved {| blob := b; finalSizeKB := size b / JS.lit_1024 |}
         | Some None => settled p w = Rejected EncodeError
         | None => False
         end
     end
  /\ (forall r,
        settled p w = Resolved r ->
        exists l,
          calls (world_after p w)
          = l ++ [Encode (canvas (world_after p w)) image_png JS.lit_1]
          /\ encode_canvas (canvas (world_after p w)) image_png JS.lit_1
             = Some (blob r)).
Proof.
  intros Hd Hc Hfuel. cbv zeta. unfold settled, world_after.
  rewrite !(processImage_png _ _ _ _ _ Hd Hc).
  split; [apply png_branch_fuel, Hfuel|].
  assert (Hlast :
            forall r,
              fst (png_branch fuel img kb (loaded file img w)) = Resolved r ->
              exists l,
                calls (snd (png_branch fuel img kb (loaded file img w)))
                = l ++ [Encode
                          (canvas (snd (png_branch fuel img kb
                                          (loaded file img w))))
                          image_png JS.lit_1]
                /\ encode_canvas
                     (canvas (snd (png_branch fuel img kb (loaded file img w))))
                     image_png JS.lit_1
                   = Some (blob r)).
  { intros r Hr.
    destruct (png_branch_resolved fuel file kb w img r Hfuel Hr)
      as (k & _ & He & [l Hl] & _).
    exists l. auto. }
  revert Hlast. rewrite png_branch_unfold. cbv zeta.
  change (canvas (loaded file img w)) with (source_canvas img).
  destruct (encode_canvas (source_canvas img) image_png JS.lit_1)
    as [first|]; [|intros _; cbn [fst]; repeat split; discriminate].
  set (w1 := record _ _).
  pose proof (png_loop_run img (kb * JS.lit_1024) image_png fuel 0 first w1
                ltac:(lia) ltac:(lia)) as Hrun.
  pose proof (png_loop_design img (kb * JS.lit_1024) image_png fuel
                first JS.lit_1 w1) as Hdesign.
  change (scale_seq 0) with JS.lit_1 in Hrun.
  destruct (png_loop _ _ _ _ _ _ _) as [[[b scale]|e|] w'];
    cbn [fst snd] in *; [| |contradiction].
  - intros Hlast.
    destruct (Design.lossless_search _ _ fuel first JS.lit_1)
      as [[[b' scale']|]|]; try discriminate.
    injection Hdesign as <- <-.
    split; [discriminate|]. split; [discriminate|]. split; trivial.
  - intros _. subst e.
    destruct (Design.lossless_search _ _ fuel first JS.lit_1)
      as [[[b' scale']|]|]; try discriminate.
    split; [discriminate|]. split; [discriminate|]. split; trivial.
    discriminate.
Qed.

(** C4, as amended.  A resolved PNG run returns the encoding of a
    canvas whose width and height are those of the image (scale 1.0,
    no decrement) or [round (originalWidth * scale)] and
    [round (originalHeight * scale)] for the scale obtained from 1.0
    by [k] double-precision subtractions of 0.05, with
    [1 <= k <= 18].  Each of these scales is above 0.05 and at most
    1, and none is below the eighteenth, 0x1.9999999999983p-4, which
    is itself a little under 0.1. *)
Theorem lossless_dimensions fuel file kb w img r :
  decode file = Some img -> context2d = true ->
  (18 <= fuel)%nat ->
  settled (processImage fuel file kb image_png) w = Resolved r ->
  let c := canvas (world_after (processImage fuel file kb image_png) w) in
  exists k,
    (k <= 18)%nat
    /\ encode_canvas c image_png JS.lit_1 = Some (blob r)
    /\ (k = 0%nat -> cwidth c = width img /\ cheight c = height img)
    /\ ((0 < k)%nat ->
        cwidth c = scaled (width img) (scale_seq k)
        /\ cheight c = scaled (height img) (scale_seq k))
    /\ (JS.lit_0_05 <? scale_seq k) = true
    /\ (scale_seq k <=? JS.lit_1) = true
    /\ (scale_seq 18 <=? scale_seq k) = true
    /\ scale_seq 18 = S754_finite false 0x19999999999983 (-56).
Proof.
  intros Hd Hc Hfuel. unfold settled, world_after.
  rewrite (processImage_png _ _ _ _ _ Hd Hc). intros Hr. cbv zeta.
  destruct (png_branch_resolved fuel file kb w img r Hfuel Hr)
    as (k & Hk & He & _ & Hcv).
  exists k. destruct (scale_seq_bounds k Hk) as (H1 & H2 & H3).
  split; [exact Hk|]. split; [exact He|].
  split; [|split; [|split; [exact H1|split; [exact H3|split; [exact H2|]]]]].
  - intros ->. destruct Hcv as [[_ ->]|[Hlt _]]; [|lia]. auto.
  - intros Hpos. destruct Hcv as [[-> _]|[_ ->]]; [lia|]. auto.
  - vm_compute. reflexivity.
Qed.

End Claims.

(* ===================================================================== *)
(** ** Runs on the small browser *)
(* ===================================================================== *)

Lemma undecodable_input_is_rejected_witness :
  @decode (Fake.browser 100) Fake.garbage = None
  /\ settled (@processImage (Fake.browser 100) 18 Fake.garbage
                Fake.one_KB image_jpeg) (Fake.idle 100)
     = Rejected DecodeError.
Proof.
  split; [reflexivity|].
  exact (proj1 (@undecodable_input_is_rejected (Fake.browser 100) 18
                  Fake.garbage Fake.one_KB image_jpeg (Fake.idle 100)
                  eq_refl)).
Defined.

(** C5 as first stated -- at most ten encoder calls -- fails on a 64 by
    32 picture whose encodings all exceed 1 KB: the ten attempts of the
    loop are followed by the fallback, the run resolves with the 1100
    bytes of the fallback, and the encoder was called eleven times. *)
Lemma eleven_encoder_calls :
  let p := @processImage (Fake.browser 1100) 0 Fake.photo
             Fake.one_KB image_jpeg in
  is_png image_jpeg = false
  /\ (exists r, settled p (Fake.idle 1100) = Resolved r
                /\ length (blob r) = 1100%nat)
  /\ encodes (calls (world_after p (Fake.idle 1100))) = 11%nat
  /\ ~ (encodes (calls (world_after p (Fake.idle 1100)))
        <= encodes (calls (Fake.idle 1100)) + 10)%nat.
Proof.
  cbv zeta. split; [reflexivity|]. split; [|split].
  - eexists. split; vm_compute; reflexivity.
  - vm_compute. reflexivity.
  - intros H. vm_compute in H. lia.
Qed.

Lemma encoder_calls_bounded_witness :
  is_png image_jpeg = false
  /\ (encodes (calls (world_after
                        (@processImage (Fake.browser 1100) 0 Fake.photo
                           Fake.one_KB image_jpeg) (Fake.idle 1100)))
      <= encodes (calls (Fake.idle 1100)) + 11)%nat.
Proof.
  split; [reflexivity|].
  exact (proj1 (@encoder_calls_bounded (Fake.browser 1100) 0 Fake.photo
                  Fake.one_KB image_jpeg (Fake.idle 1100) eq_refl)).
Defined.

Lemma quality_bracket_invariant_witness :
  let b := Fake.browser 100 in
  let target := Fake.one_KB * JS.lit_1024 in
  let w := @loaded b Fake.photo (64, 32)%Z (Fake.idle 100) in
  let loop := @quality_loop b 10 target image_jpeg JS.lit_0 JS.lit_1 None in
  let minQ := JS.of_Z 462 / JS.lit_1024 in
  let maxQ := JS.of_Z 463 / JS.lit_1024 in
  let best := repeat Byte.x00 1024 in
  (10 <= 10)%nat
  /\ settled loop w = Resolved (minQ, maxQ, Some best)
  /\ exists qs,
       calls (world_after loop w)
       = calls w ++ map (Encode (canvas w) image_jpeg) qs
       /\ Forall (fun q => strictly_inside q = true) qs
       /\ bracket (minQ, maxQ) = true
       /\ exists q,
            In q qs /\ strictly_inside q = true
            /\ @encode_canvas b (canvas w) image_jpeg q = Some best
            /\ (size best <=? target) = true.
Proof.
  cbv zeta. split; [lia|].
  assert (E : settled
                (@quality_loop (Fake.browser 100) 10
                   (Fake.one_KB * JS.lit_1024) image_jpeg
                   JS.lit_0 JS.lit_1 None)
                (@loaded (Fake.browser 100) Fake.photo (64, 32)%Z
                   (Fake.idle 100))
              = Resolved (JS.of_Z 462 / JS.lit_1024,
                          JS.of_Z 463 / JS.lit_1024,
                          Some (repeat Byte.x00 1024)))
    by (vm_compute; reflexivity).
  split; [exact E|].
  destruct (@quality_bracket_invariant (Fake.browser 100) 10
              (Fake.one_KB * JS.lit_1024) image_jpeg
              (@loaded (Fake.browser 100) Fake.photo (64, 32)%Z
                 (Fake.idle 100)) (le_n 10)) as (qs & H1 & H2 & H3).
  exists qs. split; [exact H1|]. split; [exact H2|].
  destruct (H3 _ _ _ E) as [Hb Hbest].
  split; [exact Hb|]. exact (Hbest _ eq_refl).
Defined.

Lemma fallback_quality_and_reported_size_witness :
  let b := Fake.browser 1100 in
  let p := @processImage b 0 Fake.photo Fake.one_KB image_jpeg in
  is_png image_jpeg = false
  /\ @decode b Fake.photo = Some (64, 32)%Z
  /\ @context2d b = true
  /\ settled (@quality_loop b 10 (Fake.one_KB * JS.lit_1024) image_jpeg
                JS.lit_0 JS.lit_1 None)
       (@loaded b Fake.photo (64, 32)%Z (Fake.idle 1100))
     = Resolved (JS.lit_0, S754_finite false 4503599627370496 (-62), None)
  /\ exists attempts,
       length attempts = 10%nat
       /\ calls (world_after p (Fake.idle 1100))
          = calls (@loaded b Fake.photo (64, 32)%Z (Fake.idle 1100))
            ++ attempts
            ++ [Encode (@source_canvas b (64, 32)%Z) image_jpeg JS.lit_0].
Proof.
  cbv zeta.
  assert (Hloop :
            settled (@quality_loop (Fake.browser 1100) 10
                       (Fake.one_KB * JS.lit_1024) image_jpeg
                       JS.lit_0 JS.lit_1 None)
              (@loaded (Fake.browser 1100) Fake.photo (64, 32)%Z
                 (Fake.idle 1100))
            = Resolved (JS.lit_0, S754_finite false 4503599627370496 (-62),
                        None))
    by (vm_compute; reflexivity).
  split; [reflexivity|]. split; [reflexivity|]. split; [reflexivity|].
  split; [exact Hloop|].
  destruct (proj2 (@fallback_quality_and_reported_size (Fake.browser 1100) 0
                     Fake.photo Fake.one_KB image_jpeg (Fake.idle 1100))
              eq_refl (64, 32)%Z eq_refl eq_refl _ _ _ Hloop)
    as (attempts & _ & Hlen & _ & Hzero).
  exists attempts. split; [exact Hlen|]. exact (proj2 (Hzero eq_refl)).
Defined.

Lemma lossy_result_within_budget_witness :
  let b := Fake.browser 1100 in
  let p := @processImage b 0 Fake.photo Fake.one_KB image_jpeg in
  is_png image_jpeg = false
  /\ @decode b Fake.photo = Some (64, 32)%Z
  /\ @context2d b = true
  /\ JS.is_nan Fake.one_KB = false
  /\ forall r,
       settled p (Fake.idle 1100) = Resolved r ->
       (size (blob r) <=? Fake.one_KB * JS.lit_1024) = true
       \/ (size (blob r) <=? Fake.one_KB * JS.lit_1024 * JS.lit_1_2) = true.
Proof.
  cbv zeta.
  split; [reflexivity|]. split; [reflexivity|]. split; [reflexivity|].
  split; [reflexivity|].
  intros r Hr.
  destruct (proj1 (@lossy_result_within_budget (Fake.browser 1100) 0
                     Fake.photo Fake.one_KB image_jpeg (Fake.idle 1100)
                     (64, 32)%Z eq_refl eq_refl eq_refl eq_refl) r Hr)
    as [H|(minQ & maxQ & attempts & _ & _ & _ & _ & _ & H)];
    [left|right]; exact H.
Defined.

Lemma lossy_search_refines_witness :
  let b := Fake.browser 100 in
  let p := @processImage b 0 Fake.photo Fake.one_KB image_jpeg in
  is_png image_jpeg = false
  /\ @decode b Fake.photo = Some (64, 32)%Z
  /\ @context2d b = true
  /\ exists s,
       Design.lossy_search (Fake.one_KB * JS.lit_1024)
         (@encode_canvas b (@source_canvas b (64, 32)%Z) image_jpeg)
         10 Design.lossy_start = Some s
       /\ length (Design.tried s) = 10%nat
       /\ forall blob0,
            Design.best s = Some blob0 ->
            settled p (Fake.idle 100)
            = Resolved {| blob := blob0;
                          finalSizeKB := size blob0 / JS.lit_1024 |}.
Proof.
  cbv zeta.
  split; [reflexivity|]. split; [reflexivity|]. split; [reflexivity|].
  pose proof (@lossy_search_refines (Fake.browser 100) 0 Fake.photo
                Fake.one_KB image_jpeg (Fake.idle 100) (64, 32)%Z
                eq_refl eq_refl eq_refl) as H.
  cbv zeta in H. destruct H as (_ & _ & H).
  destruct (Design.lossy_search _ _ _ _) as [s|] eqn:E.
  - exists s. split; [reflexivity|].
    destruct H as (Hlen & rest & _ & Hbest). split; [exact Hlen|].
    intros blob0 Hb. rewrite Hb in Hbest. exact (proj2 Hbest).
  - vm_compute in E. discriminate E.
Defined.

Lemma draws_from_decoded_source_witness :
  let b := Fake.browser 100 in
  @decode b Fake.icon = Some (15, 15)%Z
  /\ exists l,
       calls (world_after
                (@processImage b 18 Fake.icon Fake.one_byte image_png)
                (Fake.idle 100))
       = calls (Fake.idle 100) ++ l
       /\ Forall (@from_source b (15, 15)%Z) l.
Proof.
  cbv zeta. split; [reflexivity|].
  exact (@draws_from_decoded_source (Fake.browser 100) 18 Fake.icon
           Fake.one_byte image_png (Fake.idle 100) (15, 15)%Z eq_refl).
Defined.

Lemma lossless_search_refines_witness :
  let b := Fake.browser 100 in
  let p := @processImage b 18 Fake.icon Fake.one_byte image_png in
  @decode b Fake.icon = Some (15, 15)%Z
  /\ @context2d b = true
  /\ (18 <= 18)%nat
  /\ settled p (Fake.idle 100) <> Pending
  /\ forall kb', settled p (Fake.idle 100) <> Rejected (UnreachableBudget kb').
Proof.
  cbv zeta.
  split; [reflexivity|]. split; [reflexivity|]. split; [lia|].
  destruct (@lossless_search_refines (Fake.browser 100) 18 Fake.icon
              Fake.one_byte (Fake.idle 100) (15, 15)%Z
              eq_refl eq_refl (le_n 18)) as (_ & H1 & H2 & _).
  split; assumption.
Defined.

(** The run of the witness above is the third example of the design
    document: the budget of one byte cannot be met, the search ends at
    its floor and resolves with the 9 bytes of the last encoding. *)
Example best_effort_at_the_floor :
  exists r,
    settled (@processImage (Fake.browser 100) 18 Fake.icon Fake.one_byte
               image_png) (Fake.idle 100) = Resolved r
    /\ length (blob r) = 9%nat
    /\ (size (blob r) >? Fake.one_byte * JS.lit_1024) = true.
Proof.
  eexists. split; [vm_compute; reflexivity|].
  split; vm_compute; reflexivity.
Qed.

(** C4 as first stated -- the scale is never below 0.1 -- fails on a 15
    by 15 icon with a budget of one byte.  The run resolves after
    eighteen decrements with a canvas of 1 by 1: in double precision
    the eighteenth scale is 0.09999999999999969, under 0.1, and
    [round (15 * scale)] is 1.  No scale of the sequence that is at
    least 0.1 gives that width, since [round (15 * 0.1)] is already
    2. *)
Lemma scale_below_one_tenth :
  let p := @processImage (Fake.browser 100) 18 Fake.icon Fake.one_byte
             image_png in
  let c := canvas (world_after p (Fake.idle 100)) in
  (exists r, settled p (Fake.idle 100) = Resolved r
             /\ @encode_canvas (Fake.browser 100) c image_png JS.lit_1
                = Some (blob r))
  /\ cwidth c = 1%Z /\ cheight c = 1%Z
  /\ cwidth c = scaled 15 (scale_seq 18)
  /\ (scale_seq 18 <? JS.lit_0_1) = true
  /\ ~ (exists k, (k <= 18)%nat
                  /\ (scale_seq k <? JS.lit_0_1) = false
                  /\ cwidth c = scaled 15 (scale_seq k)
                  /\ cheight c = scaled 15 (scale_seq k)).
Proof.
  cbv zeta. split; [|split; [|split; [|split; [|split]]]].
  - eexists. split; vm_compute; reflexivity.
  - vm_compute. reflexivity.
  - vm_compute. reflexivity.
  - vm_compute. reflexivity.
  - vm_compute. reflexivity.
  - intros (k & Hk & Hs & Hw & _).
    do 19 (destruct k as [|k]; [vm_compute in Hs, Hw; discriminate|]).
    lia.
Qed.

Lemma lossless_dimensions_witness :
  let b := Fake.browser 100 in
  let p := @processImage b 18 Fake.icon Fake.one_byte image_png in
  let c := canvas (world_after p (Fake.idle 100)) in
  @decode b Fake.icon = Some (15, 15)%Z
  /\ @context2d b = true
  /\ (18 <= 18)%nat
  /\ settled p (Fake.idle 100)
     = Resolved {| blob := repeat Byte.x00 9;
                   finalSizeKB := S754_finite false 5066549580791808 (-59) |}
  /\ exists k,
       (k <= 18)%nat
       /\ ((0 < k)%nat ->
           cwidth c = scaled 15 (scale_seq k)
           /\ cheight c = scaled 15 (scale_seq k))
       /\ (JS.lit_0_05 <? scale_seq k) = true.
Proof.
  cbv zeta.
  assert (Hr : settled (@processImage (Fake.browser 100) 18 Fake.icon
                          Fake.one_byte image_png) (Fake.idle 100)
               = Resolved {| blob := repeat Byte.x00 9;
                             finalSizeKB :=
                               S754_finite false 5066549580791808 (-59) |})
    by (vm_compute; reflexivity).
  split; [reflexivity|]. split; [reflexivity|]. split; [lia|].
  split; [exact Hr|].
  destruct (@lossless_dimensions (Fake.browser 100) 18 Fake.icon
              Fake.one_byte (Fake.idle 100) (15, 15)%Z _
              eq_refl eq_refl (le_n 18) Hr)
    as (k & Hk & _ & _ & Hdim & Hlow & _).
  exists k. split; [exact Hk|]. split; [exact Hdim|exact Hlow].
Defined.

(* ===================================================================== *)
(** ** Further properties of [processImage] *)
(* ===================================================================== *)

Lemma le_not_gt x y : (x <=? y) = true -> (x >? y) = false.
Proof.
  unfold JS.gt, JS.le, SFltb, SFleb.
  destruct (SFcompare x y) as [c|] eqn:Hc; try discriminate.
  rewrite (compare_antisym _ _ _ Hc).
  destruct c; simpl; congruence.
Qed.

Lemma number_eqb_eq x y : number_eqb x y = true -> x = y.
Proof.
  destruct x as [a|a| |a m e], y as [b|b| |b n f]; simpl; try discriminate;
    trivial.
  - intros H. apply Bool.eqb_prop in H. congruence.
  - intros H. apply Bool.eqb_prop in H. congruence.
  - intros H. apply andb_true_iff in H. destruct H as [H He].
    apply andb_true_iff in H. destruct H as [Hs Hm].
    apply Bool.eqb_prop in Hs. apply Pos.eqb_eq in Hm. apply Z.eqb_eq in He.
    congruence.
Qed.

Section Aborts.

Context {browser : Browser}.

Lemma succeeded_not_failed l :
  Forall call_succeeded l -> ~ Exists encode_failed l.
Proof.
  intros Hall Hex. apply Exists_exists in Hex. destruct Hex as (c & Hin & Hc).
  rewrite Forall_forall in Hall. specialize (Hall c Hin).
  destruct c; simpl in *; auto.
Qed.

Lemma aborts_or_succeeds_nil {A} (r : Settled A) :
  r <> Rejected EncodeError -> aborts_or_succeeds r [].
Proof. intros H. right. split; [exact H|constructor]. Qed.

Lemma aborts_or_succeeds_failed {A} c :
  encode_failed c -> aborts_or_succeeds (@Rejected A EncodeError) [c].
Proof.
  intros H. left. split; trivial. exists [], c. repeat split; trivial.
Qed.

Lemma aborts_or_succeeds_app {A} (r : Settled A) l1 l2 :
  Forall call_succeeded l1 -> aborts_or_succeeds r l2 ->
  aborts_or_succeeds r (l1 ++ l2).
Proof.
  intros H1 [(Hr & l' & c & -> & Hc & Hl')|(Hr & H2)].
  - left. split; trivial. exists (l1 ++ l'), c.
    rewrite app_assoc. repeat split; trivial. apply Forall_app. auto.
  - right. split; trivial. apply Forall_app. auto.
Qed.

Lemma aborts_or_succeeds_snoc {A} (r : Settled A) l c :
  aborts_or_succeeds (@Resolved unit tt) l ->
  aborts_or_succeeds r [c] ->
  aborts_or_succeeds r (l ++ [c]).
Proof.
  intros [(Hr & _)|(_ & Hl)] H; [discriminate|].
  apply aborts_or_succeeds_app; trivial.
Qed.

Lemma aborts_or_succeeds_rejected {A B} e l :
  aborts_or_succeeds (@Rejected A e) l -> aborts_or_succeeds (@Rejected B e) l.
Proof.
  intros [(Hr & H)|(Hne & H)].
  - injection Hr as ->. left. auto.
  - right. split; trivial. intros [= ->]. apply Hne. reflexivity.
Qed.

Lemma aborts_or_succeeds_other {A B} (r : Settled A) (r' : Settled B) l :
  aborts_or_succeeds r l ->
  r <> Rejected EncodeError -> r' <> Rejected EncodeError ->
  aborts_or_succeeds r' l.
Proof.
  intros [(Hr & _)|(_ & H)] Hne Hne'; [contradiction|]. right. auto.
Qed.

Lemma quality_loop_aborts target format n :
  forall minQ maxQ bestBlob w,
  exists l,
    snd (quality_loop n target format minQ maxQ bestBlob w)
    = {| canvas := canvas w; calls := calls w ++ l |}
    /\ aborts_or_succeeds
         (fst (quality_loop n target format minQ maxQ bestBlob w)) l.
Proof.
  induction n as [|n IH]; intros minQ maxQ bestBlob w.
  - exists []. destruct w as [c l]. simpl. rewrite app_nil_r.
    split; trivial. apply aborts_or_succeeds_nil. discriminate.
  - rewrite quality_loop_turn. cbv zeta.
    set (q := (minQ + maxQ) / JS.lit_2).
    destruct (encode_canvas (canvas w) format q) as [b|] eqn:Hb.
    + assert (Hok : Forall call_succeeded [Encode (canvas w) format q]).
      { constructor; [|constructor]. simpl. congruence. }
      destruct (size b <=? target);
        [ destruct (IH q maxQ (Some b) (record (Encode (canvas w) format q) w))
            as (l & Hw & Hl)
        | destruct (IH minQ q bestBlob (record (Encode (canvas w) format q) w))
            as (l & Hw & Hl) ];
        exists (Encode (canvas w) format q :: l);
        rewrite Hw, record_calls; (split; [reflexivity|]);
        apply (aborts_or_succeeds_app _ [_] l); trivial.
    + exists [Encode (canvas w) format q]. split; [reflexivity|].
      apply aborts_or_succeeds_failed. exact Hb.
Qed.

Lemma png_loop_aborts img target format fuel :
  forall currentBlob scale w,
  exists l,
    calls (snd (png_loop fuel img target format currentBlob scale w))
    = calls w ++ l
    /\ aborts_or_succeeds
         (fst (png_loop fuel img target format currentBlob scale w)) l.
Proof.
  induction fuel as [|fuel IH]; intros b scale w.
  - rewrite png_loop_out. exists [].
    destruct (_ && _); simpl; rewrite app_nil_r; split; trivial;
      apply aborts_or_succeeds_nil; discriminate.
  - rewrite png_loop_turn. destruct (_ && _).
    + cbv zeta. set (c := resampled_canvas img (scale - JS.lit_0_05)).
      set (d := Draw img (Some (cwidth c, cheight c))
                  (cleared (cwidth c) (cheight c))).
      destruct (encode_canvas c format JS.lit_1) as [b1|] eqn:Hb1.
      * destruct (IH b1 (scale - JS.lit_0_05)
                    {| canvas := c;
                       calls := calls w ++ [d; Encode c format JS.lit_1] |})
          as (l & Hl & Hab).
        exists ([d; Encode c format JS.lit_1] ++ l).
        rewrite Hl. cbn [calls]. rewrite <- app_assoc.
        split; [reflexivity|]. apply aborts_or_succeeds_app; trivial.
        constructor; [exact I|]. constructor; [|constructor].
        simpl. congruence.
      * exists ([d] ++ [Encode c format JS.lit_1]). split; [reflexivity|].
        apply aborts_or_succeeds_app; [repeat constructor|].
        apply aborts_or_succeeds_failed. exact Hb1.
    + exists []. simpl. rewrite app_nil_r. split; trivial.
      apply aborts_or_succeeds_nil. discriminate.
Qed.

(** X1.  Without a 2d context [processImage] is rejected with
    'Could not get canvas context.' once the image is loaded: the
    canvas keeps its default 300 by 150, nothing is drawn and the
    encoder is not called. *)
Theorem no_context_is_rejected fuel file kb format w img :
  decode file = Some img -> context2d = false ->
  settled (processImage fuel file kb format) w = Rejected ContextError
  /\ calls (world_after (processImage fuel file kb format) w)
     = calls w ++ [Decode file]
  /\ canvas (world_after (processImage fuel file kb format) w)
     = cleared 300 150.
Proof.
  intros Hd Hc. unfold settled, world_after.
  rewrite (processImage_no_context _ _ _ _ _ _ Hd Hc). auto.
Qed.

(** X2.  An encoder failure aborts the search at once and is never
    swallowed: [processImage] is rejected with 'Canvas to Blob
    conversion failed.' exactly when one of the encoder calls it made
    got [null], and then that call is the last call of the run, every
    earlier one having produced a blob. *)
Theorem encoder_failure_aborts fuel file kb format w :
  exists l,
    calls (world_after (processImage fuel file kb format) w) = calls w ++ l
    /\ (settled (processImage fuel file kb format) w = Rejected EncodeError
        <-> Exists encode_failed l)
    /\ (settled (processImage fuel file kb format) w = Rejected EncodeError ->
        exists l' c, l = l' ++ [c] /\ encode_failed c
                     /\ Forall call_succeeded l').
Proof.
  assert (Hgoal :
            exists l,
              calls (world_after (processImage fuel file kb format) w)
              = calls w ++ l
              /\ aborts_or_succeeds
                   (settled (processImage fuel file kb format) w) l).
  { unfold settled, world_after.
    destruct (decode file) as [img|] eqn:Hd.
    - destruct context2d eqn:Hc.
      + assert (Hpre : Forall call_succeeded
                         [Decode file;
                          Draw img None (cleared (width img) (height img))])
          by (repeat constructor).
        destruct (is_png format) eqn:Hf.
        * destruct format; try discriminate.
          rewrite (processImage_png _ _ _ _ _ Hd Hc), png_branch_unfold.
          cbv zeta.
          change (canvas (loaded file img w)) with (source_canvas img).
          set (e := Encode (source_canvas img) image_png JS.lit_1).
          destruct (encode_canvas (source_canvas img) image_png JS.lit_1)
            as [first|] eqn:Hfirst.
          -- destruct (png_loop_aborts img (kb * JS.lit_1024) image_png fuel
                         first JS.lit_1 (record e (loaded file img w)))
               as (l & Hl & Hab).
             exists ([Decode file;
                      Draw img None (cleared (width img) (height img))]
                     ++ [e] ++ l).
             assert (Hab' : forall A (r : Settled A),
                        aborts_or_succeeds r l ->
                        aborts_or_succeeds r
                          ([Decode file;
                            Draw img None (cleared (width img) (height img))]
                           ++ [e] ++ l)).
             { intros A r Hr. apply aborts_or_succeeds_app; trivial.
               apply aborts_or_succeeds_app; trivial.
               constructor; [|constructor]. simpl. congruence. }
             destruct (png_loop _ _ _ _ _ _ _) as [[r|err|] w'];
               cbn [fst snd] in *; rewrite Hl; unfold record, loaded;
               cbn [calls]; rewrite <- !app_assoc;
               (split; [reflexivity|]); apply Hab'.
             ++ apply (aborts_or_succeeds_other _ _ _ Hab); discriminate.
             ++ apply (aborts_or_succeeds_rejected _ _ Hab).
             ++ apply (aborts_or_succeeds_other _ _ _ Hab); discriminate.
          -- exists ([Decode file;
                      Draw img None (cleared (width img) (height img))]
                     ++ [e]).
             unfold record, loaded. cbn [fst snd calls].
             rewrite <- app_assoc. split; [reflexivity|].
             apply aborts_or_succeeds_app; trivial.
             apply aborts_or_succeeds_failed. exact Hfirst.
        * rewrite (processImage_lossy _ _ _ _ _ _ Hf Hd Hc),
            lossy_branch_unfold.
          destruct (quality_loop_aborts (kb * JS.lit_1024) format 10
                      JS.lit_0 JS.lit_1 None (loaded file img w))
            as (l & Hw & Hab).
          change (canvas (loaded file img w)) with (source_canvas img) in Hw.
          destruct (quality_loop _ _ _ _ _ _ _)
            as [[[[minQ maxQ] [b|]]|err|] w']; cbn [fst snd] in *; subst w'.
          -- rewrite finish_best. cbn [fst snd calls].
             exists ([Decode file;
                      Draw img None (cleared (width img) (height img))] ++ l).
             unfold loaded. cbn [calls]. rewrite <- app_assoc.
             split; [reflexivity|]. apply aborts_or_succeeds_app; trivial.
             apply (aborts_or_succeeds_other _ _ _ Hab); discriminate.
          -- rewrite finish_fallback. cbv zeta. cbn [canvas].
             assert (Hl : Forall call_succeeded l)
               by (destruct Hab as [[? _]|[_ ?]]; [discriminate|trivial]).
             set (e := Encode (source_canvas img) format minQ).
             exists ([Decode file;
                      Draw img None (cleared (width img) (height img))]
                     ++ l ++ [e]).
             destruct (encode_canvas (source_canvas img) format minQ)
               as [fb|] eqn:Hfb; unfold record, loaded; cbn [fst snd calls];
               rewrite <- !app_assoc; (split; [reflexivity|]);
               apply aborts_or_succeeds_app; trivial;
               apply aborts_or_succeeds_app; trivial.
             ++ right. split.
                ** destruct (size fb >? _); discriminate.
                ** constructor; [|constructor]. simpl. fold e. congruence.
             ++ apply aborts_or_succeeds_failed. exact Hfb.
          -- exists ([Decode file;
                      Draw img None (cleared (width img) (height img))] ++ l).
             unfold loaded. cbn [calls]. rewrite <- app_assoc.
             split; [reflexivity|]. apply aborts_or_succeeds_app; trivial.
             apply (aborts_or_succeeds_rejected _ _ Hab).
          -- exists ([Decode file;
                      Draw img None (cleared (width img) (height img))] ++ l).
             unfold loaded. cbn [calls]. rewrite <- app_assoc.
             split; [reflexivity|]. apply aborts_or_succeeds_app; trivial.
             apply (aborts_or_succeeds_other _ _ _ Hab); discriminate.
      + rewrite (processImage_no_context _ _ _ _ _ _ Hd Hc). cbn [fst snd calls].
        exists [Decode file]. split; [reflexivity|]. right.
        split; [discriminate|repeat constructor].
    - rewrite (processImage_undecodable _ _ _ _ _ Hd). cbn [fst snd].
      exists [Decode file]. unfold record. cbn [calls].
      split; [reflexivity|]. right.
      split; [discriminate|repeat constructor]. }
  destruct Hgoal as (l & Hl & Hab). exists l. split; [exact Hl|].
  destruct Hab as [(Hr & l' & c & -> & Hc & Hl')|(Hr & Hall)].
  - split.
    + split; trivial. intros _. apply Exists_app. right.
      constructor. exact Hc.
    + intros _. exists l', c. auto.
  - split.
    + split; [contradiction|].
      intros Hex. exfalso. exact (succeeded_not_failed l Hall Hex).
    + contradiction.
Qed.

End Aborts.

(** After ten turns the bracket is [2^-10] wide, and its upper end is 1
    only when its lower end is [1023/1024]. *)
Lemma reach_gap_checked :
  forallb (fun s =>
             number_eqb (snd s - fst s) two_to_minus_10
             && (negb (number_eqb (snd s) JS.lit_1)
                 || number_eqb (fst s) top_quality))
          (reach 10) = true.
Proof. vm_compute. reflexivity. Qed.

Lemma reach_gap s :
  In s (reach 10) ->
  snd s - fst s = two_to_minus_10
  /\ (snd s = JS.lit_1 -> fst s = top_quality).
Proof.
  intros Hs. pose proof reach_gap_checked as H.
  rewrite forallb_forall in H. specialize (H s Hs).
  apply andb_true_iff in H. destruct H as [H1 H2]. split.
  - apply number_eqb_eq, H1.
  - intros E. apply orb_true_iff in H2. destruct H2 as [H2|H2].
    + rewrite E in H2. discriminate H2.
    + apply number_eqb_eq, H2.
Qed.

Lemma le_nan x : (x <=? S754_nan) = false.
Proof. destruct x; reflexivity. Qed.

Lemma gt_nan x : (x >? S754_nan) = false.
Proof. destruct x; reflexivity. Qed.

Section Bracketing.

Context {browser : Browser}.

Lemma quality_loop_bracketing target format n :
  forall minQ maxQ bestBlob w,
    floor_holds target format (canvas w) minQ bestBlob ->
    ceiling_holds target format (canvas w) maxQ ->
    forall minQ' maxQ' bestBlob',
      fst (quality_loop n target format minQ maxQ bestBlob w)
      = Resolved (minQ', maxQ', bestBlob') ->
      floor_holds target format (canvas w) minQ' bestBlob'
      /\ ceiling_holds target format (canvas w) maxQ'.
Proof.
  induction n as [|n IH]; intros minQ maxQ bestBlob w Hlo Hhi mn mx bb.
  - intros [= <- <- <-]. auto.
  - rewrite quality_loop_turn. cbv zeta.
    set (q := (minQ + maxQ) / JS.lit_2).
    destruct (encode_canvas (canvas w) format q) as [b|] eqn:Hb;
      [|discriminate].
    destruct (size b <=? target) eqn:Hfit; intros Hr.
    + apply (IH q maxQ (Some b) (record (Encode (canvas w) format q) w));
        trivial. split; assumption.
    + apply (IH minQ q bestBlob (record (Encode (canvas w) format q) w));
        trivial. right. exists b. auto.
Qed.

(** The lossy loop, once it resolved: what is known of its result. *)
Lemma lossy_loop_facts target format w minQ maxQ bestBlob :
  fst (quality_loop 10 target format JS.lit_0 JS.lit_1 None w)
  = Resolved (minQ, maxQ, bestBlob) ->
  maxQ - minQ = two_to_minus_10
  /\ (maxQ = JS.lit_1 -> minQ = top_quality)
  /\ floor_holds target format (canvas w) minQ bestBlob
  /\ ceiling_holds target format (canvas w) maxQ
  /\ (bestBlob = None -> minQ = JS.lit_0).
Proof.
  intros Hr.
  destruct (quality_loop_reach target format 10 0 JS.lit_0 JS.lit_1 None w
              ltac:(lia) ltac:(left; reflexivity)) as (qs & _ & _ & Hreach).
  destruct (Hreach _ _ _ Hr) as [Hin _].
  destruct (reach_gap _ Hin) as [Hgap Htop].
  destruct (quality_loop_bracketing target format 10 JS.lit_0 JS.lit_1 None w
              I ltac:(left; reflexivity) _ _ _ Hr) as [Hlo Hhi].
  destruct (quality_loop_best target format 10 JS.lit_0 JS.lit_1 None w)
    as (qs' & _ & Hbest).
  destruct (Hbest _ _ _ Hr) as (_ & Hmin & _).
  repeat split; trivial.
Qed.

(** The two ends of the bracket of a resolved lossy run. *)
Lemma lossy_resolved_bracket fuel file kb format w img r :
  is_png format = false ->
  decode file = Some img -> context2d = true ->
  settled (processImage fuel file kb format) w = Resolved r ->
  exists minQ maxQ,
    encode_canvas (source_canvas img) format minQ = Some (blob r)
    /\ maxQ - minQ = two_to_minus_10
    /\ (minQ = JS.lit_0 \/ (size (blob r) <=? kb * JS.lit_1024) = true)
    /\ ceiling_holds (kb * JS.lit_1024) format (source_canvas img) maxQ.
Proof.
  intros Hf Hd Hc. unfold settled.
  rewrite (processImage_lossy _ _ _ _ _ _ Hf Hd Hc), lossy_branch_unfold.
  pose proof (lossy_loop_facts (kb * JS.lit_1024) format (loaded file img w))
    as Hfacts.
  destruct (quality_loop_trace (kb * JS.lit_1024) format 10
              JS.lit_0 JS.lit_1 None (loaded file img w))
    as (qs & Hw & _).
  destruct (quality_loop _ _ _ _ _ _ _)
    as [[[[minQ maxQ] [b|]]|e|] w']; cbn [fst snd] in *; try discriminate;
    subst w';
    destruct (Hfacts _ _ _ eq_refl) as (Hgap & _ & Hlo & Hhi & Hzero).
  - rewrite finish_best. cbn [fst]. intros [= <-]. cbn [blob].
    destruct Hlo as [He Hs]. exists minQ, maxQ.
    split; [exact He|]. split; [exact Hgap|].
    split; [right; exact Hs|exact Hhi].
  - rewrite finish_fallback. cbv zeta. cbn [canvas loaded].
    destruct (encode_canvas (source_canvas img) format minQ) as [fb|] eqn:Hfb;
      cbn [fst]; [|discriminate].
    destruct (size fb >? _); [discriminate|].
    intros [= <-]. cbn [blob]. exists minQ, maxQ.
    split; [exact Hfb|]. split; [exact Hgap|].
    split; [left; exact (Hzero eq_refl)|exact Hhi].
Qed.

(** X3.  What the binary search guarantees about the blob a lossy
    [processImage] resolves with: it is the encoding of the image at
    the final [minQuality]; the final [maxQuality] is exactly [2^-10]
    above it; the blob fits the budget unless [minQuality] is 0 (the
    fallback); and [maxQuality] is 1 or was tried and produced a blob
    over the budget. *)
Theorem lossy_result_is_bracketed fuel file kb format w img r :
  is_png format = false ->
  decode file = Some img -> context2d = true ->
  settled (processImage fuel file kb format) w = Resolved r ->
  exists minQ maxQ,
    encode_canvas (source_canvas img) format minQ = Some (blob r)
    /\ maxQ - minQ = two_to_minus_10
    /\ (minQ = JS.lit_0 \/ (size (blob r) <=? kb * JS.lit_1024) = true)
    /\ ceiling_holds (kb * JS.lit_1024) format (source_canvas img) maxQ.
Proof. apply lossy_resolved_bracket. Qed.

(** X4.  An image whose every encoding fits the budget is still
    re-encoded: the ten attempts all succeed, the encoder is called
    exactly ten times, and the promise resolves with the encoding at
    quality [1023/1024].  Quality 1 is never used. *)
Theorem fitting_image_gets_top_quality fuel file kb format w img :
  is_png format = false ->
  decode file = Some img -> context2d = true ->
  (forall q, exists b,
      encode_canvas (source_canvas img) format q = Some b
      /\ (size b <=? kb * JS.lit_1024) = true) ->
  exists b,
    encode_canvas (source_canvas img) format top_quality = Some b
    /\ settled (processImage fuel file kb format) w
       = Resolved {| blob := b; finalSizeKB := size b / JS.lit_1024 |}
    /\ encodes (calls (world_after (processImage fuel file kb format) w))
       = (encodes (calls w) + 10)%nat.
Proof.
  intros Hf Hd Hc Hfits.
  assert (Hten : forall minQ maxQ b,
             fst (quality_loop 10 (kb * JS.lit_1024) format
                    JS.lit_0 JS.lit_1 None (loaded file img w))
             = Resolved (minQ, maxQ, Some b) ->
             encodes (calls (snd (lossy_branch kb format (loaded file img w))))
             = (encodes (calls w) + 10)%nat).
  { intros minQ maxQ b Hr.
    destruct (lossy_branch_calls kb format (loaded file img w))
      as (qs & rest & Hw & _ & _ & _ & Hbest).
    destruct (Hbest _ _ _ Hr) as [Hlen ->].
    rewrite Hw. unfold loaded at 1. cbn [calls].
    rewrite !encodes_app, encodes_map, Hlen.
    change (encodes [Decode file; Draw img None _]) with 0%nat.
    change (encodes []) with 0%nat. lia. }
  unfold settled, world_after in *.
  rewrite (processImage_lossy _ _ _ _ _ _ Hf Hd Hc).
  rewrite lossy_branch_unfold in *.
  pose proof (lossy_loop_facts (kb * JS.lit_1024) format (loaded file img w))
    as Hfacts.
  destruct (quality_loop_aborts (kb * JS.lit_1024) format 10
              JS.lit_0 JS.lit_1 None (loaded file img w))
    as (l & Hl & Hab).
  destruct (quality_loop_trace (kb * JS.lit_1024) format 10
              JS.lit_0 JS.lit_1 None (loaded file img w))
    as (qs & Hw & _ & Hres).
  destruct (quality_loop 10 _ format JS.lit_0 JS.lit_1 None (loaded file img w))
    as [[[[minQ maxQ] bestBlob]|e|] w'] eqn:Hrun; cbn [fst snd] in *.
  - destruct (Hfacts _ _ _ eq_refl) as (_ & Htop & Hlo & Hhi & Hzero).
    assert (Hmax : maxQ = JS.lit_1).
    { destruct Hhi as [E|(b' & He & Hs)]; trivial.
      destruct (Hfits maxQ) as (b & He' & Hs').
      change (canvas (loaded file img w)) with (source_canvas img) in He.
      congruence. }
    specialize (Htop Hmax). subst minQ.
    destruct bestBlob as [b|].
    + destruct Hlo as [He _]. exists b. split; [exact He|].
      rewrite finish_best in *. cbn [fst snd] in *. split; trivial.
      apply (Hten top_quality maxQ b); trivial.
    + specialize (Hzero eq_refl). discriminate Hzero.
  - exfalso. subst e.
    destruct Hab as [(_ & l' & c & -> & Hc' & _)|(Hne & _)];
      [|apply Hne; reflexivity].
    rewrite Hw in Hl. injection Hl as Hl. apply app_inv_head in Hl.
    assert (Hin : In c (l' ++ [c]))
      by (apply in_or_app; right; left; reflexivity).
    rewrite <- Hl in Hin.
    apply in_map_iff in Hin. destruct Hin as (q & <- & _).
    destruct (Hfits q) as (b & He & _). simpl in Hc'.
    change (canvas (loaded file img w)) with (source_canvas img) in Hc'.
    congruence.
  - contradiction.
Qed.

(** X5.  With a target size that is NaN every comparison of the lossy
    branch is false: no attempt is recorded as best, so the blob a
    resolved run returns is the fallback encoding at quality 0,
    whatever its size, and the budget error is never raised. *)
Theorem nan_budget_returns_fallback fuel file kb format w img :
  is_png format = false ->
  decode file = Some img -> context2d = true ->
  JS.is_nan kb = true ->
  (forall r,
     settled (processImage fuel file kb format) w = Resolved r ->
     encode_canvas (source_canvas img) format JS.lit_0 = Some (blob r))
  /\ (forall kb',
        settled (processImage fuel file kb format) w
        <> Rejected (UnreachableBudget kb')).
Proof.
  intros Hf Hd Hc Hnan. destruct kb; try discriminate Hnan.
  unfold settled.
  rewrite (processImage_lossy _ _ _ _ _ _ Hf Hd Hc), lossy_branch_unfold.
  change (S754_nan * JS.lit_1024) with S754_nan.
  destruct (quality_loop_reach S754_nan format 10 0 JS.lit_0 JS.lit_1 None
              (loaded file img w) ltac:(lia) ltac:(left; reflexivity))
    as (qs & _ & _ & Hreach).
  destruct (quality_loop_best S754_nan format 10 JS.lit_0 JS.lit_1 None
              (loaded file img w)) as (qs' & Hw & Hbest).
  destruct (quality_loop_trace S754_nan format 10 JS.lit_0 JS.lit_1 None
              (loaded file img w)) as (qs'' & _ & _ & Hrej).
  destruct (quality_loop 10 _ format JS.lit_0 JS.lit_1 None (loaded file img w))
    as [[[[minQ maxQ] [b|]]|e|] w']; cbn [fst snd] in *;
    [ | | subst e; split; intros; discriminate | contradiction ].
  - exfalso. destruct (Hreach _ _ _ eq_refl) as [_ H].
    destruct (H b eq_refl) as [E|(q & _ & _ & Hs)]; [discriminate|].
    rewrite le_nan in Hs. discriminate.
  - destruct (Hbest _ _ _ eq_refl) as (_ & Hmin & _).
    rewrite (Hmin eq_refl). subst w'.
    rewrite finish_fallback. cbv zeta. cbn [canvas loaded].
    change (S754_nan * JS.lit_1024 * JS.lit_1_2) with S754_nan.
    destruct (encode_canvas (source_canvas img) format JS.lit_0) as [fb|];
      cbn [fst]; [|split; intros; discriminate].
    rewrite gt_nan. split; [|intros; discriminate].
    intros r [= <-]. reflexivity.
Qed.

End Bracketing.

(** The first eighteen scales are above 0.1. *)
Lemma scale_above_checked :
  forallb (fun k => scale_seq k >? JS.lit_0_1) (seq 0 18) = true.
Proof. vm_compute. reflexivity. Qed.

Lemma scale_above k : (k < 18)%nat -> (scale_seq k >? JS.lit_0_1) = true.
Proof.
  intros Hk. pose proof scale_above_checked as H.
  rewrite forallb_forall in H. apply H, in_seq. lia.
Qed.

Section PngFurther.

Context {browser : Browser}.

Lemma draws_app l1 l2 : draws (l1 ++ l2) = (draws l1 + draws l2)%nat.
Proof. unfold draws. rewrite filter_app, length_app. reflexivity. Qed.

(** The loop is left only when its condition is false. *)
Lemma png_loop_exit img target format fuel :
  forall currentBlob scale w b scale',
    fst (png_loop fuel img target format currentBlob scale w)
    = Resolved (b, scale') ->
    (size b >? target) && (scale' >? JS.lit_0_1) = false.
Proof.
  induction fuel as [|fuel IH]; intros b0 scale w b scale'.
  - rewrite png_loop_out. destruct (_ && _) eqn:Hcond; [discriminate|].
    intros [= <- <-]. exact Hcond.
  - rewrite png_loop_turn. destruct (_ && _) eqn:Hcond.
    + cbv zeta. destruct (encode_canvas _ format JS.lit_1); [|discriminate].
      apply IH.
    + intros [= <- <-]. exact Hcond.
Qed.

(** From the scale reached after [k] decrements the loop makes at most
    [18 - k] turns, each with one drawing and one PNG encoding at
    quality 1. *)
Lemma png_loop_calls img target fuel :
  forall k currentBlob w,
    (k <= 18)%nat ->
    exists l,
      calls (snd (png_loop fuel img target image_png currentBlob
                    (scale_seq k) w))
      = calls w ++ l
      /\ (encodes l <= 18 - k)%nat
      /\ draws l = encodes l
      /\ Forall png_encode_or_draw l.
Proof.
  induction fuel as [|fuel IH]; intros k b w Hk.
  - rewrite png_loop_out. exists [].
    destruct (_ && _); simpl; rewrite app_nil_r; repeat split; auto;
      unfold encodes; simpl; lia.
  - rewrite png_loop_turn. destruct (_ && _) eqn:Hcond.
    + assert (k <> 18)%nat as Hk'.
      { intros ->. rewrite scale_floor, andb_false_r in Hcond.
        discriminate. }
      cbv zeta. rewrite <- scale_seq_S.
      set (c := resampled_canvas img (scale_seq (S k))).
      set (d := Draw img (Some (cwidth c, cheight c))
                  (cleared (cwidth c) (cheight c))).
      assert (Hturn : encodes [d; Encode c image_png JS.lit_1] = 1%nat
                      /\ draws [d; Encode c image_png JS.lit_1] = 1%nat
                      /\ Forall png_encode_or_draw
                           [d; Encode c image_png JS.lit_1]).
      { repeat split. constructor; [exact I|].
        constructor; [|constructor]. simpl. auto. }
      destruct Hturn as (He & Hdr & Hall).
      destruct (encode_canvas c image_png JS.lit_1) as [b1|].
      * destruct (IH (S k) b1
                    {| canvas := c;
                       calls := calls w ++ [d; Encode c image_png JS.lit_1] |}
                    ltac:(lia)) as (l & Hl & Hen & Hdl & Hal).
        exists ([d; Encode c image_png JS.lit_1] ++ l).
        rewrite Hl. cbn [calls]. rewrite <- app_assoc.
        split; [reflexivity|].
        rewrite encodes_app, draws_app, He, Hdr, Hdl.
        split; [lia|]. split; [reflexivity|]. apply Forall_app. auto.
      * exists [d; Encode c image_png JS.lit_1]. cbn [snd calls].
        split; [reflexivity|]. rewrite He, Hdr.
        split; [lia|]. split; [reflexivity|exact Hall].
    + exists []. simpl. rewrite app_nil_r. repeat split; auto.
      unfold encodes; simpl; lia.
Qed.

(** X6.  A resolved PNG run is over the budget only at the floor: for
    a target size that is not NaN, the returned blob fits
    [targetSizeKB * 1024] unless all eighteen decrements were made, in
    which case the canvas is the image resampled at the eighteenth
    scale. *)
Theorem png_result_fits_or_floor fuel file kb w img r :
  decode file = Some img -> context2d = true ->
  (18 <= fuel)%nat ->
  JS.is_nan kb = false ->
  settled (processImage fuel file kb image_png) w = Resolved r ->
  (size (blob r) <=? kb * JS.lit_1024) = true
  \/ canvas (world_after (processImage fuel file kb image_png) w)
     = resampled_canvas img (scale_seq 18).
Proof.
  intros Hd Hc Hfuel Hnan. unfold settled, world_after.
  rewrite (processImage_png _ _ _ _ _ Hd Hc), png_branch_unfold. cbv zeta.
  destruct (encode_canvas _ _ _) as [first|]; [|discriminate].
  set (w1 := record _ _).
  pose proof (png_loop_run img (kb * JS.lit_1024) image_png fuel 0 first w1
                ltac:(lia) ltac:(lia)) as Hrun.
  pose proof (png_loop_exit img (kb * JS.lit_1024) image_png fuel
                first JS.lit_1 w1) as Hexit.
  change (scale_seq 0) with JS.lit_1 in Hrun.
  destruct (png_loop _ _ _ _ _ _ _) as [[[b scale]|e|] w']; cbn [fst snd] in *;
    try discriminate.
  intros [= <-]. cbn [blob].
  specialize (Hexit _ _ eq_refl).
  destruct Hrun as (k & Hk & -> & Hcases).
  apply andb_false_iff in Hexit. destruct Hexit as [Hsize|Hscale].
  - left. apply not_gt_le; trivial.
    + apply size_not_nan.
    + change JS.lit_1024 with (S754_finite false 4503599627370496 (-42)).
      apply mul_finite_not_nan, Hnan.
  - right. assert (k = 18)%nat as ->.
    { destruct (Nat.eq_dec k 18) as [E|E]; trivial.
      rewrite scale_above in Hscale by lia. discriminate. }
    destruct Hcases as [(E & _)|(_ & Hcv & _)]; [discriminate|exact Hcv].
Qed.

(** X7.  Whatever the fuel, a PNG run calls the encoder at most
    nineteen times, always for PNG at quality 1, and each of these
    encodings follows a drawing of its own: the run draws as often as
    it encodes. *)
Theorem png_calls_bounded fuel file kb w :
  exists l,
    calls (world_after (processImage fuel file kb image_png) w) = calls w ++ l
    /\ (encodes l <= 19)%nat
    /\ draws l = encodes l
    /\ Forall png_encode_or_draw l.
Proof.
  unfold world_after.
  destruct (decode file) as [img|] eqn:Hd.
  - destruct context2d eqn:Hc.
    + rewrite (processImage_png _ _ _ _ _ Hd Hc), png_branch_unfold. cbv zeta.
      change (canvas (loaded file img w)) with (source_canvas img).
      set (pre := [Decode file;
                   Draw img None (cleared (width img) (height img));
                   Encode (source_canvas img) image_png JS.lit_1]).
      assert (Hpre : encodes pre = 1%nat /\ draws pre = 1%nat
                     /\ Forall png_encode_or_draw pre).
      { repeat split. repeat constructor. }
      destruct Hpre as (He & Hdr & Hall).
      assert (Hw1 : calls (record (Encode (source_canvas img) image_png JS.lit_1)
                             (loaded file img w))
                    = calls w ++ pre).
      { unfold record, loaded. cbn [calls]. rewrite <- app_assoc.
        reflexivity. }
      destruct (encode_canvas _ _ _) as [first|].
      * destruct (png_loop_calls img (kb * JS.lit_1024) fuel 0 first
                    (record (Encode (source_canvas img) image_png JS.lit_1)
                       (loaded file img w)) ltac:(lia))
          as (l & Hl & Hen & Hdl & Hal).
        change (scale_seq 0) with JS.lit_1 in Hl.
        exists (pre ++ l).
        assert (Hcalls :
                  calls (snd (png_loop fuel img (kb * JS.lit_1024) image_png
                                first JS.lit_1
                                (record (Encode (source_canvas img) image_png
                                           JS.lit_1) (loaded file img w))))
                  = calls w ++ pre ++ l)
          by (rewrite Hl, Hw1, <- app_assoc; reflexivity).
        split.
        -- destruct (png_loop _ _ _ _ _ _ _) as [[r|e|] w']; exact Hcalls.
        -- rewrite encodes_app, draws_app, He, Hdr, Hdl.
           split; [lia|]. split; [reflexivity|]. apply Forall_app. auto.
      * exists pre. cbn [snd]. split; [exact Hw1|]. rewrite He, Hdr.
        split; [lia|]. split; [reflexivity|exact Hall].
    + rewrite (processImage_no_context _ _ _ _ _ _ Hd Hc). cbn [snd calls].
      exists [Decode file]. repeat split; auto.
      * unfold encodes. simpl. lia.
      * repeat constructor.
  - rewrite (processImage_undecodable _ _ _ _ _ Hd). cbn [snd].
    exists [Decode file]. repeat split; auto.
    + unfold encodes. simpl. lia.
    + repeat constructor.
Qed.

(** X8.  A PNG whose first encoding, at the original dimensions, fits
    the budget is returned as it is: one drawing, one encoder call, no
    resampling, whatever the fuel. *)
Theorem png_fitting_image_untouched fuel file kb w img first :
  decode file = Some img -> context2d = true ->
  encode_canvas (source_canvas img) image_png JS.lit_1 = Some first ->
  (size first <=? kb * JS.lit_1024) = true ->
  processImage fuel file kb image_png w
  = (Resolved {| blob := first; finalSizeKB := size first / JS.lit_1024 |},
     {| canvas := source_canvas img;
        calls := calls w ++
                 [Decode file;
                  Draw img None (cleared (width img) (height img));
                  Encode (source_canvas img) image_png JS.lit_1] |}).
Proof.
  intros Hd Hc Hfirst Hfit.
  rewrite (processImage_png _ _ _ _ _ Hd Hc), png_branch_unfold. cbv zeta.
  change (canvas (loaded file img w)) with (source_canvas img).
  rewrite Hfirst.
  assert (Hloop : forall w1,
             png_loop fuel img (kb * JS.lit_1024) image_png first JS.lit_1 w1
             = (Resolved (first, JS.lit_1), w1)).
  { intros w1. destruct fuel.
    - rewrite png_loop_out, (le_not_gt _ _ Hfit). reflexivity.
    - rewrite png_loop_turn, (le_not_gt _ _ Hfit). reflexivity. }
  rewrite Hloop. unfold record, loaded. cbn [fst calls canvas].
  rewrite <- app_assoc. reflexivity.
Qed.

End PngFurther.

(* ===================================================================== *)
(** ** Properties of the component *)
(* ===================================================================== *)

Module AppFacts.

Import Ascii String.

Section Handlers.

Context {browser : Browser}.
Variable Number_toString : JS.number -> string.
Variable createObjectURL : Blob -> string.

Local Abbreviation resize :=
  (App.handleProcessImage Number_toString createObjectURL).

(** The format handed to [processImage]. *)
Lemma resize_unfold fuel st w file :
  App.originalFile st = Some file ->
  resize fuel st w
  = let st0 := App.setProcessedImage None
                 (App.setError None (App.setIsProcessing true st)) in
    let format := match App.targetFormat st with
                  | App.image_jpg => image_jpeg
                  | App.known f => f
                  end in
    match processImage fuel (App.content file) (App.targetSizeKB st) format w
    with
    | (Resolved r, w') =>
        (Resolved
           (App.setIsProcessing false
              (App.setProcessedImage
                 (Some {| App.url := createObjectURL (blob r);
                          App.size_KB := finalSizeKB r |}) st0)), w')
    | (Rejected err, w') =>
        (Resolved
           (App.setIsProcessing false
              (App.setProcessedImage None
                 (App.setError
                    (Some match App.message Number_toString err with
                          | Some m => m
                          | None =>
                              "An unknown error occurred during processing."%string
                          end) st0))), w')
    | (Pending, w') => (Pending, w')
    end.
Proof.
  intros Hfile. unfold App.handleProcessImage. rewrite Hfile. reflexivity.
Qed.

(** X9.  Whatever the user does -- selecting files, moving the slider,
    choosing a format, clicking the resize button -- in any order, once
    the handlers have run the component is not processing and a
    processed image is shown only when there is an original file; this
    holds from the state of a component just mounted. *)
Theorem session_keeps_settled fuel actions :
  forall st w st' w',
    Session.settled_state st ->
    Session.run Number_toString createObjectURL fuel actions st w
    = (Resolved st', w') ->
    Session.settled_state st'.
Proof.
  induction actions as [|a rest IH]; intros st w st' w' Hst.
  - intros [= <- _]. exact Hst.
  - cbn [Session.run]. unfold await.
    destruct (Session.act Number_toString createObjectURL fuel a st w)
      as [[st1|e|] w1] eqn:Hact; try discriminate.
    apply IH. clear IH. destruct Hst as [Hproc Himg].
    destruct a as [[file|]|v|f|]; cbn [Session.act] in Hact.
    + injection Hact as <- _. unfold App.handleFileChange.
      destruct (negb _); split; cbn; trivial; discriminate.
    + injection Hact as <- _. split; trivial.
    + injection Hact as <- _. split; trivial.
    + injection Hact as <- _. split; trivial.
    + destruct (App.originalFile st) as [file|] eqn:Hfile.
      * rewrite (resize_unfold fuel st w file Hfile) in Hact. cbv zeta in Hact.
        destruct (processImage _ _ _ _ _) as [[r|err|] w2];
          try discriminate; injection Hact as <- _;
          split; cbn; trivial; rewrite Hfile; discriminate.
      * unfold App.handleProcessImage in Hact. rewrite Hfile in Hact.
        injection Hact as <- _. split; cbn; trivial.
        rewrite Hfile. exact Himg.
Qed.

(** X10.  What a click on the resize button leaves, when a file is
    loaded: the file and the two settings are untouched, processing is
    over, and there is either a processed image -- the object URL of
    the blob [processImage] resolved with and its [finalSizeKB] -- and
    no error, or an error message and no processed image.  The file
    bytes, the target size and the format go to [processImage] as they
    are, except that 'image/jpg' goes as 'image/jpeg'.  A file that
    does not decode gives 'An unknown error occurred during
    processing.'. *)
Theorem resize_outcome fuel st w file st' w' :
  App.originalFile st = Some file ->
  resize fuel st w = (Resolved st', w') ->
  let format := match App.targetFormat st with
                | App.image_jpg => image_jpeg
                | App.known f => f
                end in
  let run := processImage fuel (App.content file) (App.targetSizeKB st) format w in
  App.originalFile st' = Some file
  /\ App.targetSizeKB st' = App.targetSizeKB st
  /\ App.targetFormat st' = App.targetFormat st
  /\ App.isProcessing st' = false
  /\ w' = snd run
  /\ ((exists r,
         fst run = Resolved r
         /\ App.processedImage st'
            = Some {| App.url := createObjectURL (blob r);
                      App.size_KB := finalSizeKB r |}
         /\ App.error st' = None)
      \/ (exists err,
            fst run = Rejected err
            /\ App.processedImage st' = None
            /\ App.error st'
               = Some match App.message Number_toString err with
                      | Some m => m
                      | None =>
                          "An unknown error occurred during processing."%string
                      end))
  /\ (decode (App.content file) = None ->
      App.error st'
      = Some "An unknown error occurred during processing."%string).
Proof.
  intros Hfile. rewrite (resize_unfold fuel st w file Hfile). cbv zeta.
  pose proof (processImage_undecodable fuel (App.content file)
                (App.targetSizeKB st)
                match App.targetFormat st with
                | App.image_jpg => image_jpeg
                | App.known f => f
                end w) as Hbad.
  destruct (processImage _ _ _ _ _) as [[r|err|] w2]; try discriminate;
    intros [= <- <-]; cbn.
  - repeat split; trivial.
    + left. exists r. auto.
    + intros Hd. specialize (Hbad Hd). discriminate.
  - repeat split; trivial.
    + right. exists err. auto.
    + intros Hd. specialize (Hbad Hd). injection Hbad as -> _. reflexivity.
Qed.

(** X11.  Choosing JPG or JPEG in the format menu is the same to the
    resize button: the same calls are made to the browser and the same
    image or error results; the two states differ by the selected
    format only. *)
Theorem jpg_is_jpeg fuel st w st' w' :
  resize fuel (App.setTargetFormat (App.known image_jpeg) st) w
  = (Resolved st', w') ->
  resize fuel (App.setTargetFormat App.image_jpg st) w
  = (Resolved (App.setTargetFormat App.image_jpg st'), w').
Proof.
  unfold App.handleProcessImage. cbn.
  destruct (App.originalFile st) as [file|].
  - destruct (processImage _ _ _ _ _) as [[r|err|] w2]; try discriminate;
      intros [= <- <-]; reflexivity.
  - intros [= <- <-]. reflexivity.
Qed.

(** X12.  A new file makes the old result unavailable: once
    [handleFileChange] has accepted a file, [handleDownload] does
    nothing until the image is processed again; a file it refuses
    leaves the download as it was. *)
Theorem new_file_disables_download file st :
  (App.startsWith (App.type file) "image/"%string = true ->
   App.handleDownload (App.handleFileChange (Some file) st) = None)
  /\ (App.startsWith (App.type file) "image/"%string = false ->
      App.handleDownload (App.handleFileChange (Some file) st)
      = App.handleDownload st
      /\ App.error (App.handleFileChange (Some file) st)
         = Some "Please upload a valid image file."%string).
Proof.
  unfold App.handleFileChange. split; intros ->; cbn; auto.
Qed.

(** X13.  The download is named after the format selected when the
    button is clicked, not after the format the image was processed
    in: changing the format after a successful resize changes the
    extension of the download and leaves its content, the object URL
    of the blob already produced, as it is. *)
Theorem download_follows_selection fuel st w file st' w' r format :
  App.originalFile st = Some file ->
  resize fuel st w = (Resolved st', w') ->
  settled (processImage fuel (App.content file) (App.targetSizeKB st)
             match App.targetFormat st with
             | App.image_jpg => image_jpeg
             | App.known f => f
             end) w = Resolved r ->
  exists link,
    App.handleDownload (App.setTargetFormat format st') = Some link
    /\ App.href link = createObjectURL (blob r)
    /\ App.download link
       = (App.substring (App.name file) 0 (App.lastIndexOf (App.name file) ".")
          ++ "_resized."
          ++ match App.getFileExtension format with
             | Some ext => ext
             | None => "undefined"
             end)%string.
Proof.
  intros Hfile. rewrite (resize_unfold fuel st w file Hfile). cbv zeta.
  unfold settled.
  destruct (processImage _ _ _ _ _) as [[r0|err|] w2]; try discriminate.
  intros [= <- <-] [= <-].
  unfold App.handleDownload. cbn. rewrite Hfile. cbn.
  eexists. repeat split.
Qed.

End Handlers.

(** *** File names *)

Lemma length_append (s t : string) :
  String.length (s ++ t)%string = (String.length s + String.length t)%nat.
Proof. induction s as [|c s IH]; simpl; auto. Qed.

Lemma substring_append_left (s t : string) :
  String.substring 0 (String.length s) (s ++ t)%string = s.
Proof.
  induction s as [|c s IH]; simpl.
  - destruct t; reflexivity.
  - rewrite IH. reflexivity.
Qed.

Lemma substring_0_0 (s : string) : String.substring 0 0 s = ""%string.
Proof. destruct s; reflexivity. Qed.

Lemma lastIndexOf_from_absent c s :
  forall i last,
    ~ In c (list_ascii_of_string s) ->
    App.lastIndexOf_from s c i last = last.
Proof.
  induction s as [|d s IH]; intros i last Hno; simpl; trivial.
  simpl in Hno. destruct (Ascii.eqb d c) eqn:E.
  - apply Ascii.eqb_eq in E. tauto.
  - apply IH. tauto.
Qed.

Lemma lastIndexOf_from_last c stem suffix :
  forall i last,
    ~ In c (list_ascii_of_string suffix) ->
    App.lastIndexOf_from (stem ++ String c suffix)%string c i last
    = (i + Z.of_nat (String.length stem))%Z.
Proof.
  induction stem as [|d stem IH]; intros i last Hno.
  - simpl. rewrite Ascii.eqb_refl, lastIndexOf_from_absent by trivial. lia.
  - cbn [append App.lastIndexOf_from String.length].
    rewrite IH by trivial. lia.
Qed.

Lemma extension_defined (f : App.TargetFormat) :
  exists ext, App.getFileExtension f = Some ext.
Proof. destruct f as [[]|]; eexists; reflexivity. Qed.

(** X14.  For each of the four formats the extension is what follows
    'image/' in the format: 'jpeg', 'png', 'webp' and 'jpg'.  It is
    never [undefined], and the special case for 'image/jpg' returns
    what the general rule [split('/')[1]] would. *)
Theorem extension_of_format (f : App.TargetFormat) :
  exists ext,
    App.getFileExtension f = Some ext
    /\ App.mime f = ("image/" ++ ext)%string
    /\ nth_error (App.split (App.mime f) "/") 1 = Some ext
    /\ ~ In "/"%char (list_ascii_of_string ext).
Proof.
  destruct f as [[]|]; eexists; (split; [reflexivity|]);
    (split; [reflexivity|]); (split; [reflexivity|]);
    simpl; intros H; repeat (destruct H as [H|H]; [discriminate H|]);
    exact H.
Qed.

(** X15.  [handleDownload] names the download after the original file:
    a name [stem.suffix], where [suffix] has no point, gives
    [stem_resized.ext], with [ext] the extension of the selected
    format; only the last suffix is replaced, and the link points to
    the processed image. *)
Theorem download_name st file img stem suffix :
  App.originalFile st = Some file ->
  App.processedImage st = Some img ->
  App.name file = (stem ++ "." ++ suffix)%string ->
  ~ In "."%char (list_ascii_of_string suffix) ->
  exists ext,
    App.getFileExtension (App.targetFormat st) = Some ext
    /\ App.handleDownload st
       = Some {| App.href := App.url img;
                 App.download := (stem ++ "_resized." ++ ext)%string |}.
Proof.
  intros Hfile Himg Hname Hno.
  destruct (extension_defined (App.targetFormat st)) as (ext & Hext).
  exists ext. split; [exact Hext|].
  unfold App.handleDownload. rewrite Himg, Hfile, Hext, Hname.
  unfold App.lastIndexOf.
  change (stem ++ "." ++ suffix)%string with (stem ++ String "." suffix)%string.
  rewrite lastIndexOf_from_last by trivial.
  unfold App.substring. rewrite length_append. cbn [String.length].
  rewrite Z.add_0_l, Z.max_id.
  replace (Z.min 0 (Z.of_nat (String.length stem + S (String.length suffix))))
    with 0%Z by lia.
  replace (Z.min (Z.max (Z.of_nat (String.length stem)) 0)
             (Z.of_nat (String.length stem + S (String.length suffix))))
    with (Z.of_nat (String.length stem)) by lia.
  replace (Z.min 0 (Z.of_nat (String.length stem))) with 0%Z by lia.
  replace (Z.max 0 (Z.of_nat (String.length stem)) - 0)%Z
    with (Z.of_nat (String.length stem)) by lia.
  rewrite Nat2Z.id. change (Z.to_nat 0) with 0%nat.
  rewrite substring_append_left. reflexivity.
Qed.

(** X16.  A file name without any point loses its name: [lastIndexOf]
    is [-1], [substring(0, -1)] is the empty string, and the download
    is called [_resized.ext]. *)
Theorem download_name_without_point st file img :
  App.originalFile st = Some file ->
  App.processedImage st = Some img ->
  ~ In "."%char (list_ascii_of_string (App.name file)) ->
  exists ext,
    App.getFileExtension (App.targetFormat st) = Some ext
    /\ App.handleDownload st
       = Some {| App.href := App.url img;
                 App.download := ("_resized." ++ ext)%string |}.
Proof.
  intros Hfile Himg Hno.
  destruct (extension_defined (App.targetFormat st)) as (ext & Hext).
  exists ext. split; [exact Hext|].
  unfold App.handleDownload. rewrite Himg, Hfile, Hext.
  unfold App.lastIndexOf. rewrite lastIndexOf_from_absent by trivial.
  unfold App.substring.
  replace (Z.min (Z.max 0 0) (Z.of_nat (String.length (App.name file))))
    with 0%Z by lia.
  replace (Z.min (Z.max (-1) 0) (Z.of_nat (String.length (App.name file))))
    with 0%Z by lia.
  change (Z.to_nat (Z.min 0 0)) with 0%nat.
  change (Z.to_nat (Z.max 0 0 - Z.min 0 0)) with 0%nat.
  rewrite substring_0_0. reflexivity.
Qed.

(** *** File sizes *)

Section Sizes.

Variable Number_toString : JS.number -> string.

Local Abbreviation format_size := (App.formatFileSize Number_toString).

Lemma whole_KB_checked :
  forallb (fun n =>
             let k := Z.of_nat n in
             match format_size (Some (JS.of_Z k)) (Some 0%Z),
                   format_size (Some (JS.of_Z k)) (Some 2%Z) with
             | Some a, Some b =>
                 String.eqb a (App.digits k ++ " KB")
                 && String.eqb b (App.digits k ++ ".00 KB")
             | _, _ => false
             end)
          (seq 0 1000) = true.
Proof. vm_compute. reflexivity. Qed.

(** X17.  A whole number of kilobytes below 1000 is displayed exactly:
    [formatFileSize(k, 0)], the label of the slider, is the decimal
    digits of [k] followed by ' KB', and [formatFileSize(k, 2)] has
    '.00' in between. *)
Theorem whole_KB_label k :
  (0 <= k < 1000)%Z ->
  format_size (Some (JS.of_Z k)) (Some 0%Z)
  = Some (App.digits k ++ " KB")%string
  /\ format_size (Some (JS.of_Z k)) (Some 2%Z)
     = Some (App.digits k ++ ".00 KB")%string.
Proof.
  intros Hk. pose proof whole_KB_checked as H.
  rewrite forallb_forall in H.
  specialize (H (Z.to_nat k) ltac:(apply in_seq; lia)).
  cbv zeta in H. rewrite Z2Nat.id in H by lia.
  destruct (format_size (Some (JS.of_Z k)) (Some 0%Z)) as [a|];
    [|discriminate].
  destruct (format_size (Some (JS.of_Z k)) (Some 2%Z)) as [b|];
    [|discriminate].
  apply andb_true_iff in H. destruct H as [Ha Hb].
  apply String.eqb_eq in Ha, Hb. subst. auto.
Qed.

Lemma MB_band_checked precision :
  forallb (fun n =>
             let k := Z.of_nat n in
             match format_size (Some (JS.of_Z k)) precision with
             | Some a =>
                 String.eqb a "0.98 MB" || String.eqb a "0.99 MB"
                 || String.eqb a "1.00 MB"
             | None => false
             end)
          (seq 1000 24) = true.
Proof. vm_compute. reflexivity. Qed.

(** X18.  The unit changes at 1000 KB but the value is divided by 1024:
    a whole number of kilobytes from 1000 to 1023 is displayed as
    '0.98 MB', '0.99 MB' or '1.00 MB', whatever the precision asked
    for. *)
Theorem MB_band k precision :
  (1000 <= k <= 1023)%Z ->
  format_size (Some (JS.of_Z k)) precision = Some "0.98 MB"%string
  \/ format_size (Some (JS.of_Z k)) precision = Some "0.99 MB"%string
  \/ format_size (Some (JS.of_Z k)) precision = Some "1.00 MB"%string.
Proof.
  intros Hk. pose proof (MB_band_checked precision) as H.
  rewrite forallb_forall in H.
  specialize (H (Z.to_nat k) ltac:(apply in_seq; lia)).
  cbv zeta in H. rewrite Z2Nat.id in H by lia.
  destruct (format_size (Some (JS.of_Z k)) precision) as [a|];
    [|discriminate].
  apply orb_true_iff in H. destruct H as [H|H].
  - apply orb_true_iff in H. destruct H as [H|H];
      apply String.eqb_eq in H; subst; auto.
  - apply String.eqb_eq in H. subst. auto.
Qed.

(** X19.  [formatFileSize] throws (the [RangeError] of [toFixed]) only
    when it is given a precision outside 0..100 together with a number
    that is not at least 1000, NaN included: from 1000 KB on the
    precision is not used, and without a number the result is the
    empty string. *)
Theorem formatFileSize_throws kb precision :
  format_size kb precision = None
  <-> exists x p,
        kb = Some x /\ precision = Some p
        /\ (JS.of_Z 1000 <=? x) = false
        /\ (p < 0 \/ 100 < p)%Z.
Proof.
  unfold App.formatFileSize. split.
  - destruct kb as [x|]; [|discriminate].
    destruct (JS.of_Z 1000 <=? x) eqn:Hx.
    + unfold App.toFixed. simpl (_ || _). discriminate.
    + unfold App.toFixed.
      destruct precision as [p|]; [|simpl (_ || _); discriminate].
      destruct ((p <? 0)%Z || (100 <? p)%Z) eqn:Hp; [|discriminate].
      intros _. exists x, p. repeat split; trivial.
      apply orb_true_iff in Hp. destruct Hp as [Hp|Hp];
        [left; apply Z.ltb_lt, Hp | right; apply Z.ltb_lt, Hp].
  - intros (x & p & -> & -> & Hx & Hp). rewrite Hx. unfold App.toFixed.
    assert (E : ((p <? 0)%Z || (100 <? p)%Z) = true).
    { apply orb_true_iff. destruct Hp as [Hp|Hp];
        [left|right]; apply Z.ltb_lt, Hp. }
    rewrite E. reflexivity.
Qed.

End Sizes.

(** *** Runs of the component on the small browser *)

Lemma session_keeps_settled_witness :
  Session.settled_state App.initial
  /\ match fst (Session.run (browser := Fake.browser 100)
                  FakeApp.Number_toString FakeApp.createObjectURL 18
                  [Session.SelectFile (Some FakeApp.photo); Session.ClickResize;
                   Session.SelectFile (Some FakeApp.notes);
                   Session.ChooseFormat App.image_jpg]
                  App.initial (Fake.idle 100)) with
     | Resolved st' => Session.settled_state st'
     | _ => False
     end.
Proof.
  assert (H0 : Session.settled_state App.initial).
  { split; [reflexivity|]. intros H. exfalso. apply H. reflexivity. }
  split; [exact H0|].
  destruct (fst (Session.run _ _ _ _ _ _)) as [st'|e|] eqn:E.
  - apply (@session_keeps_settled (Fake.browser 100)
             FakeApp.Number_toString FakeApp.createObjectURL 18 _ _ _ _ _
             H0 (eq_trans (surjective_pairing _) (f_equal2 pair E eq_refl))).
  - vm_compute in E. discriminate E.
  - vm_compute in E. discriminate E.
Defined.

Lemma resize_outcome_witness :
  let st := App.setOriginalFile (Some FakeApp.photo) App.initial in
  App.originalFile st = Some FakeApp.photo
  /\ match fst (App.handleProcessImage (browser := Fake.browser 100)
                  FakeApp.Number_toString FakeApp.createObjectURL 18 st
                  (Fake.idle 100)) with
     | Resolved st' =>
         App.isProcessing st' = false
         /\ App.originalFile st' = Some FakeApp.photo
     | _ => False
     end.
Proof.
  cbv zeta. split; [reflexivity|].
  destruct (fst (App.handleProcessImage _ _ _ _ _)) as [st'|e|] eqn:E.
  - destruct (@resize_outcome (Fake.browser 100) FakeApp.Number_toString
                FakeApp.createObjectURL 18
                (App.setOriginalFile (Some FakeApp.photo) App.initial)
                (Fake.idle 100) FakeApp.photo _ _ eq_refl
                (eq_trans (surjective_pairing _) (f_equal2 pair E eq_refl)))
      as (H1 & _ & _ & H4 & _).
    split; assumption.
  - vm_compute in E. discriminate E.
  - vm_compute in E. discriminate E.
Defined.

Lemma jpg_is_jpeg_witness :
  let st := App.setOriginalFile (Some FakeApp.photo) App.initial in
  match fst (App.handleProcessImage (browser := Fake.browser 100)
               FakeApp.Number_toString FakeApp.createObjectURL 18
               (App.setTargetFormat (App.known image_jpeg) st)
               (Fake.idle 100)) with
  | Resolved st' =>
      fst (App.handleProcessImage (browser := Fake.browser 100)
             FakeApp.Number_toString FakeApp.createObjectURL 18
             (App.setTargetFormat App.image_jpg st) (Fake.idle 100))
      = Resolved (App.setTargetFormat App.image_jpg st')
  | _ => False
  end.
Proof.
  cbv zeta.
  destruct (fst (App.handleProcessImage _ _ _
                   (App.setTargetFormat (App.known image_jpeg) _) _))
    as [st'|e|] eqn:E.
  - rewrite (@jpg_is_jpeg (Fake.browser 100) FakeApp.Number_toString
               FakeApp.createObjectURL 18 _ _ _ _
               (eq_trans (surjective_pairing _) (f_equal2 pair E eq_refl))).
    reflexivity.
  - vm_compute in E. discriminate E.
  - vm_compute in E. discriminate E.
Defined.

Lemma new_file_disables_download_witness :
  App.startsWith (App.type FakeApp.scan) "image/" = true
  /\ App.startsWith (App.type FakeApp.notes) "image/" = false
  /\ forall st,
       App.handleDownload (App.handleFileChange (Some FakeApp.scan) st) = None
       /\ App.handleDownload (App.handleFileChange (Some FakeApp.notes) st)
          = App.handleDownload st.
Proof.
  split; [reflexivity|]. split; [reflexivity|]. intros st. split.
  - exact (proj1 (new_file_disables_download FakeApp.scan st) eq_refl).
  - exact (proj1 (proj2 (new_file_disables_download FakeApp.notes st) eq_refl)).
Defined.

Lemma download_follows_selection_witness :
  let st := App.setTargetFormat (App.known image_png)
              (App.setOriginalFile (Some FakeApp.photo) App.initial) in
  App.originalFile st = Some FakeApp.photo
  /\ match fst (App.handleProcessImage (browser := Fake.browser 100)
                  FakeApp.Number_toString FakeApp.createObjectURL 18 st
                  (Fake.idle 100)) with
     | Resolved st' =>
         exists link,
           App.handleDownload
             (App.setTargetFormat (App.known image_webp) st') = Some link
           /\ App.href link = "blob:2056"%string
           /\ App.download link = "holiday.photo_resized.webp"%string
     | _ => False
     end.
Proof.
  cbv zeta. split; [reflexivity|].
  destruct (fst (App.handleProcessImage _ _ _ _ _)) as [st'|e|] eqn:E.
  - assert (Hr : settled
                   (processImage (browser := Fake.browser 100) 18
                      (App.content FakeApp.photo) (JS.of_Z 100) image_png)
                   (Fake.idle 100)
                 = Resolved {| blob := repeat Byte.x00 2056;
                               finalSizeKB :=
                                 JS.of_Z 2056 / JS.lit_1024 |})
      by (vm_compute; reflexivity).
    destruct (@download_follows_selection (Fake.browser 100)
                FakeApp.Number_toString FakeApp.createObjectURL 18
                (App.setTargetFormat (App.known image_png)
                   (App.setOriginalFile (Some FakeApp.photo) App.initial))
                (Fake.idle 100)
                FakeApp.photo _ _ _ (App.known image_webp) eq_refl
                (eq_trans (surjective_pairing _) (f_equal2 pair E eq_refl)) Hr)
      as (link & H1 & H2 & H3).
    exists link. split; [exact H1|]. split.
    + rewrite H2. vm_compute. reflexivity.
    + rewrite H3. vm_compute. reflexivity.
  - vm_compute in E. discriminate E.
  - vm_compute in E. discriminate E.
Defined.

Lemma download_name_witness :
  let st := App.setProcessedImage
              (Some {| App.url := "blob:1"; App.size_KB := JS.lit_1 |})
              (App.setOriginalFile (Some FakeApp.photo) App.initial) in
  App.name FakeApp.photo = ("holiday.photo" ++ "." ++ "png")%string
  /\ ~ In "."%char (list_ascii_of_string "png")
  /\ App.handleDownload st
     = Some {| App.href := "blob:1";
               App.download := "holiday.photo_resized.jpeg" |}.
Proof.
  cbv zeta.
  assert (Hno : ~ In "."%char (list_ascii_of_string "png")).
  { simpl. intros H. repeat (destruct H as [H|H]; [discriminate H|]).
    exact H. }
  split; [reflexivity|]. split; [exact Hno|].
  destruct (download_name
              (App.setProcessedImage
                 (Some {| App.url := "blob:1"; App.size_KB := JS.lit_1 |})
                 (App.setOriginalFile (Some FakeApp.photo) App.initial))
              FakeApp.photo _ "holiday.photo" "png"
              eq_refl eq_refl eq_refl Hno) as (ext & Hext & Hd).
  rewrite Hd. injection Hext as <-. reflexivity.
Defined.

Lemma download_name_without_point_witness :
  let st := App.setProcessedImage
              (Some {| App.url := "blob:1"; App.size_KB := JS.lit_1 |})
              (App.setOriginalFile (Some FakeApp.scan) App.initial) in
  ~ In "."%char (list_ascii_of_string (App.name FakeApp.scan))
  /\ App.handleDownload st
     = Some {| App.href := "blob:1"; App.download := "_resized.jpeg" |}.
Proof.
  cbv zeta.
  assert (Hno : ~ In "."%char (list_ascii_of_string (App.name FakeApp.scan))).
  { simpl. intros H. repeat (destruct H as [H|H]; [discriminate H|]).
    exact H. }
  split; [exact Hno|].
  destruct (download_name_without_point
              (App.setProcessedImage
                 (Some {| App.url := "blob:1"; App.size_KB := JS.lit_1 |})
                 (App.setOriginalFile (Some FakeApp.scan) App.initial))
              FakeApp.scan _ eq_refl eq_refl Hno) as (ext & Hext & Hd).
  rewrite Hd. injection Hext as <-. reflexivity.
Defined.

Lemma whole_KB_label_witness :
  (0 <= 20 < 1000)%Z
  /\ App.formatFileSize FakeApp.Number_toString (Some (JS.of_Z 20)) (Some 0%Z)
     = Some "20 KB"%string.
Proof.
  split; [lia|].
  exact (proj1 (whole_KB_label FakeApp.Number_toString 20 ltac:(lia))).
Defined.

Lemma MB_band_witness :
  (1000 <= 1000 <= 1023)%Z
  /\ (App.formatFileSize FakeApp.Number_toString (Some (JS.of_Z 1000)) (Some 0%Z)
      = Some "0.98 MB"%string
      \/ App.formatFileSize FakeApp.Number_toString (Some (JS.of_Z 1000))
           (Some 0%Z) = Some "0.99 MB"%string
      \/ App.formatFileSize FakeApp.Number_toString (Some (JS.of_Z 1000))
           (Some 0%Z) = Some "1.00 MB"%string).
Proof.
  split; [lia|].
  exact (MB_band FakeApp.Number_toString 1000 (Some 0%Z) ltac:(lia)).
Defined.

End AppFacts.

(* ===================================================================== *)
(** ** Further runs on the small browser *)
(* ===================================================================== *)

Lemma le_infinity n : (JS.of_Z n <=? S754_infinity false) = true.
Proof.
  pose proof (of_Z_not_nan n) as H.
  destruct (JS.of_Z n) as [s|[]| |s m e]; try reflexivity; discriminate H.
Qed.

Lemma no_context_is_rejected_witness :
  @decode Fake.headless Fake.photo = Some (64, 32)%Z
  /\ @context2d Fake.headless = false
  /\ settled (@processImage Fake.headless 0 Fake.photo Fake.one_KB image_jpeg)
       Fake.idle_headless
     = Rejected ContextError.
Proof.
  split; [reflexivity|]. split; [reflexivity|].
  exact (proj1 (@no_context_is_rejected Fake.headless 0 Fake.photo
                  Fake.one_KB image_jpeg Fake.idle_headless (64, 32)%Z
                  eq_refl eq_refl)).
Defined.

Lemma lossy_result_is_bracketed_witness :
  let b := Fake.browser 100 in
  is_png image_jpeg = false
  /\ @decode b Fake.photo = Some (64, 32)%Z
  /\ @context2d b = true
  /\ match settled (@processImage b 0 Fake.photo Fake.one_KB image_jpeg)
             (Fake.idle 100) with
     | Resolved r =>
         exists minQ maxQ,
           @encode_canvas b (@source_canvas b (64, 32)%Z) image_jpeg minQ
           = Some (blob r)
           /\ maxQ - minQ = two_to_minus_10
     | _ => False
     end.
Proof.
  cbv zeta.
  split; [reflexivity|]. split; [reflexivity|]. split; [reflexivity|].
  destruct (settled _ _) as [r|e|] eqn:E.
  - destruct (@lossy_result_is_bracketed (Fake.browser 100) 0 Fake.photo
                Fake.one_KB image_jpeg (Fake.idle 100) (64, 32)%Z r
                eq_refl eq_refl eq_refl E) as (minQ & maxQ & H1 & H2 & _).
    exists minQ, maxQ. split; assumption.
  - vm_compute in E. discriminate E.
  - vm_compute in E. discriminate E.
Defined.

Lemma fitting_image_gets_top_quality_witness :
  let b := Fake.browser 100 in
  is_png image_webp = false
  /\ @decode b Fake.photo = Some (64, 32)%Z
  /\ @context2d b = true
  /\ (forall q, exists blob0,
         @encode_canvas b (@source_canvas b (64, 32)%Z) image_webp q
         = Some blob0
         /\ (size blob0 <=? S754_infinity false * JS.lit_1024) = true)
  /\ exists blob0,
       @encode_canvas b (@source_canvas b (64, 32)%Z) image_webp top_quality
       = Some blob0
       /\ settled (@processImage b 0 Fake.photo (S754_infinity false)
                     image_webp) (Fake.idle 100)
          = Resolved {| blob := blob0;
                        finalSizeKB := size blob0 / JS.lit_1024 |}.
Proof.
  cbv zeta.
  assert (Hfits : forall q, exists blob0,
             @encode_canvas (Fake.browser 100)
               (@source_canvas (Fake.browser 100) (64, 32)%Z) image_webp q
             = Some blob0
             /\ (size blob0 <=? S754_infinity false * JS.lit_1024) = true).
  { intros q. eexists. split; [reflexivity|]. apply le_infinity. }
  split; [reflexivity|]. split; [reflexivity|]. split; [reflexivity|].
  split; [exact Hfits|].
  destruct (@fitting_image_gets_top_quality (Fake.browser 100) 0 Fake.photo
              (S754_infinity false) image_webp (Fake.idle 100) (64, 32)%Z
              eq_refl eq_refl eq_refl Hfits) as (blob0 & H1 & H2 & _).
  exists blob0. split; assumption.
Defined.

Lemma nan_budget_returns_fallback_witness :
  let b := Fake.browser 100 in
  is_png image_jpeg = false
  /\ @decode b Fake.photo = Some (64, 32)%Z
  /\ @context2d b = true
  /\ JS.is_nan S754_nan = true
  /\ forall kb',
       settled (@processImage b 0 Fake.photo S754_nan image_jpeg)
         (Fake.idle 100)
       <> Rejected (UnreachableBudget kb').
Proof.
  cbv zeta.
  split; [reflexivity|]. split; [reflexivity|]. split; [reflexivity|].
  split; [reflexivity|].
  exact (proj2 (@nan_budget_returns_fallback (Fake.browser 100) 0 Fake.photo
                  S754_nan image_jpeg (Fake.idle 100) (64, 32)%Z
                  eq_refl eq_refl eq_refl eq_refl)).
Defined.

Lemma png_result_fits_or_floor_witness :
  let b := Fake.browser 100 in
  let p := @processImage b 18 Fake.icon Fake.one_byte image_png in
  @decode b Fake.icon = Some (15, 15)%Z
  /\ @context2d b = true
  /\ (18 <= 18)%nat
  /\ JS.is_nan Fake.one_byte = false
  /\ match settled p (Fake.idle 100) with
     | Resolved r =>
         (size (blob r) <=? Fake.one_byte * JS.lit_1024) = true
         \/ canvas (world_after p (Fake.idle 100))
            = @resampled_canvas b (15, 15)%Z (scale_seq 18)
     | _ => False
     end.
Proof.
  cbv zeta.
  split; [reflexivity|]. split; [reflexivity|]. split; [lia|].
  split; [reflexivity|].
  destruct (settled _ _) as [r|e|] eqn:E.
  - exact (@png_result_fits_or_floor (Fake.browser 100) 18 Fake.icon
             Fake.one_byte (Fake.idle 100) (15, 15)%Z r
             eq_refl eq_refl (le_n 18) eq_refl E).
  - vm_compute in E. discriminate E.
  - vm_compute in E. discriminate E.
Defined.

Lemma png_fitting_image_untouched_witness :
  let b := Fake.browser 100 in
  @decode b Fake.icon = Some (15, 15)%Z
  /\ @context2d b = true
  /\ @encode_canvas b (@source_canvas b (15, 15)%Z) image_png JS.lit_1
     = Some (repeat Byte.x00 233)
  /\ (size (repeat Byte.x00 233) <=? Fake.one_KB * JS.lit_1024) = true
  /\ settled (@processImage b 0 Fake.icon Fake.one_KB image_png) (Fake.idle 100)
     = Resolved {| blob := repeat Byte.x00 233;
                   finalSizeKB := size (repeat Byte.x00 233) / JS.lit_1024 |}.
Proof.
  cbv zeta.
  assert (Hfit : (size (repeat Byte.x00 233) <=? Fake.one_KB * JS.lit_1024)
                 = true) by (vm_compute; reflexivity).
  split; [reflexivity|]. split; [reflexivity|]. split; [reflexivity|].
  split; [exact Hfit|].
  unfold settled.
  rewrite (@png_fitting_image_untouched (Fake.browser 100) 0 Fake.icon
             Fake.one_KB (Fake.idle 100) (15, 15)%Z (repeat Byte.x00 233)
             eq_refl eq_refl eq_refl Hfit).
  reflexivity.
Defined.

(* ===================================================================== *)
(** ** What the two searches settle for *)
(* ===================================================================== *)

(** [<=] on numbers is transitive. *)
Lemma number_le_trans x y z :
  (x <=? y) = true -> (y <=? z) = true -> (x <=? z) = true.
Proof.
  unfold JS.le, SFleb.
  destruct x as [sx|sx| |sx mx ex], y as [sy|sy| |sy my ey],
    z as [sz|sz| |sz mz ez]; simpl; try discriminate; try reflexivity;
    try destruct sx; try destruct sy; try destruct sz; simpl;
    try discriminate; try reflexivity;
    repeat match goal with
           | |- context [(?a ?= ?b)%Z] =>
               destruct (Z.compare_spec a b); subst
           | |- context [Pos.compare_cont Eq ?a ?b] =>
               change (Pos.compare_cont Eq a b) with (Pos.compare a b);
               destruct (Pos.compare_spec a b); subst
           end; simpl; intros;
    first [reflexivity | discriminate | exfalso; lia].
Qed.

(** The upper end of a bracket reached after ten turns is not below 0. *)
Lemma reach_top_checked :
  forallb (fun s => JS.lit_0 <=? snd s) (reach 10) = true.
Proof. vm_compute. reflexivity. Qed.

Section Optimality.

Context {browser : Browser}.

(** The bracket a resolved lossy run ended on. *)
Lemma lossy_resolved_ends fuel file kb format w img r :
  is_png format = false ->
  decode file = Some img -> context2d = true ->
  settled (processImage fuel file kb format) w = Resolved r ->
  exists minQ maxQ,
    encode_canvas (source_canvas img) format minQ = Some (blob r)
    /\ In (minQ, maxQ) (reach 10)
    /\ ceiling_holds (kb * JS.lit_1024) format (source_canvas img) maxQ.
Proof.
  intros Hf Hd Hc. unfold settled.
  rewrite (processImage_lossy _ _ _ _ _ _ Hf Hd Hc), lossy_branch_unfold.
  pose proof (lossy_loop_facts (kb * JS.lit_1024) format (loaded file img w))
    as Hfacts.
  destruct (quality_loop_reach (kb * JS.lit_1024) format 10 0
              JS.lit_0 JS.lit_1 None (loaded file img w)
              ltac:(lia) ltac:(left; reflexivity)) as (qs0 & _ & _ & Hreach).
  destruct (quality_loop_trace (kb * JS.lit_1024) format 10
              JS.lit_0 JS.lit_1 None (loaded file img w))
    as (qs & Hw & _).
  destruct (quality_loop _ _ _ _ _ _ _)
    as [[[[minQ maxQ] [b|]]|e|] w']; cbn [fst snd] in *; try discriminate;
    subst w';
    destruct (Hfacts _ _ _ eq_refl) as (_ & _ & Hlo & Hhi & _);
    destruct (Hreach _ _ _ eq_refl) as [Hin _].
  - rewrite finish_best. cbn [fst]. intros [= <-]. cbn [blob].
    destruct Hlo as [He _]. exists minQ, maxQ. auto.
  - rewrite finish_fallback. cbv zeta. cbn [canvas loaded].
    destruct (encode_canvas (source_canvas img) format minQ) as [fb|] eqn:Hfb;
      cbn [fst]; [|discriminate].
    destruct (size fb >? _); [discriminate|].
    intros [= <-]. cbn [blob]. exists minQ, maxQ. auto.
Qed.

(** X20.  The binary search is right when, for qualities between 0 and
    1, fitting is downward closed (a lower quality of the same image
    fits whenever a higher one does): the blob a lossy [processImage]
    resolves with is the encoding at the lower end [minQ] of a bracket
    [0 <= minQ < maxQ <= 1] with [maxQ - minQ = 2^-10], and either the
    bracket is [1023/1024, 1], or no quality from [maxQ] up to 1 gives
    a blob within the budget.  The result is the best one up to 1/1024
    of quality. *)
Theorem lossy_result_is_best fuel file kb format w img r :
  is_png format = false ->
  decode file = Some img -> context2d = true ->
  (forall q1 q2 b1 b2,
      (JS.lit_0 <=? q1) = true ->
      (q1 <=? q2) = true ->
      (q2 <=? JS.lit_1) = true ->
      encode_canvas (source_canvas img) format q1 = Some b1 ->
      encode_canvas (source_canvas img) format q2 = Some b2 ->
      (size b2 <=? kb * JS.lit_1024) = true ->
      (size b1 <=? kb * JS.lit_1024) = true) ->
  settled (processImage fuel file kb format) w = Resolved r ->
  exists minQ maxQ,
    encode_canvas (source_canvas img) format minQ = Some (blob r)
    /\ maxQ - minQ = two_to_minus_10
    /\ bracket (minQ, maxQ) = true
    /\ ((maxQ = JS.lit_1 /\ minQ = top_quality)
        \/ forall q b,
             (maxQ <=? q) = true ->
             (q <=? JS.lit_1) = true ->
             encode_canvas (source_canvas img) format q = Some b ->
             (size b <=? kb * JS.lit_1024) = false).
Proof.
  intros Hf Hd Hc Hmono Hr.
  destruct (lossy_resolved_ends fuel file kb format w img r Hf Hd Hc Hr)
    as (minQ & maxQ & He & Hin & Hhi).
  destruct (reach_gap _ Hin) as [Hgap Htop]. cbn [fst snd] in Hgap, Htop.
  pose proof (reach_bracket 10 _ (le_n 10) Hin) as Hbr.
  pose proof reach_top_checked as Hpos.
  rewrite forallb_forall in Hpos. specialize (Hpos _ Hin).
  cbn [snd] in Hpos.
  exists minQ, maxQ. split; [exact He|]. split; [exact Hgap|].
  split; [exact Hbr|].
  destruct Hhi as [Hone|(b' & Hb' & Hover)].
  - left. split; [exact Hone|exact (Htop Hone)].
  - right. intros q b Hq Hq1 Hb.
    destruct (size b <=? kb * JS.lit_1024) eqn:Hfit; trivial.
    rewrite (Hmono maxQ q b' b Hpos Hq Hq1 Hb' Hb Hfit) in Hover.
    discriminate.
Qed.

(** From the canvas reached after [k] decrements, whose encoding is
    [currentBlob], the loop ends on the canvas of some later count
    [k'], and every encoding in between was over the budget. *)
Lemma png_loop_minimal img target fuel :
  forall k currentBlob w,
    (k <= 18)%nat ->
    canvas w = canvas_at img k ->
    encode_canvas (canvas_at img k) image_png JS.lit_1 = Some currentBlob ->
    forall b scale,
      fst (png_loop fuel img target image_png currentBlob (scale_seq k) w)
      = Resolved (b, scale) ->
      exists k',
        (k <= k' <= 18)%nat
        /\ canvas (snd (png_loop fuel img target image_png currentBlob
                          (scale_seq k) w))
           = canvas_at img k'
        /\ encode_canvas (canvas_at img k') image_png JS.lit_1 = Some b
        /\ forall j, (k <= j < k')%nat ->
             exists bj,
               encode_canvas (canvas_at img j) image_png JS.lit_1 = Some bj
               /\ (size bj >? target) = true.
Proof.
  induction fuel as [|fuel IH]; intros k b0 w Hk Hcv Hb0 b scale.
  - rewrite png_loop_out. destruct (_ && _); [discriminate|].
    intros [= <- <-]. exists k. cbn [snd]. repeat split; trivial; lia.
  - rewrite png_loop_turn. destruct (_ && _) eqn:Hcond.
    + assert (k <> 18)%nat as Hk'.
      { intros ->. rewrite scale_floor, andb_false_r in Hcond.
        discriminate. }
      apply andb_true_iff in Hcond. destruct Hcond as [Hover _].
      cbv zeta. rewrite <- scale_seq_S.
      change (resampled_canvas img (scale_seq (S k)))
        with (canvas_at img (S k)).
      destruct (encode_canvas (canvas_at img (S k)) image_png JS.lit_1)
        as [b1|] eqn:Hb1; [|discriminate].
      intros Hr.
      apply IH in Hr; [ | lia | reflexivity | exact Hb1 ].
      destruct Hr as (k' & Hk'' & Hcv' & Hb & Hbetween).
      exists k'. split; [lia|]. split; [exact Hcv'|]. split; [exact Hb|].
      intros j Hj. destruct (Nat.eq_dec j k) as [->|Hne].
      * exists b0. auto.
      * apply Hbetween. lia.
    + intros [= <- <-]. exists k. cbn [snd]. repeat split; trivial; lia.
Qed.

(** X21.  The PNG search shrinks no more than it has to: a resolved
    run returns the encoding of the canvas after some number
    [k <= 18] of decrements, and for each smaller number of decrements
    the encoding of the canvas -- the original for 0 -- exists and is
    over the budget. *)
Theorem png_result_is_first_fit fuel file kb w img r :
  decode file = Some img -> context2d = true ->
  (18 <= fuel)%nat ->
  settled (processImage fuel file kb image_png) w = Resolved r ->
  exists k,
    (k <= 18)%nat
    /\ canvas (world_after (processImage fuel file kb image_png) w)
       = canvas_at img k
    /\ encode_canvas (canvas_at img k) image_png JS.lit_1 = Some (blob r)
    /\ forall j, (j < k)%nat ->
         exists bj,
           encode_canvas (canvas_at img j) image_png JS.lit_1 = Some bj
           /\ (size bj >? kb * JS.lit_1024) = true.
Proof.
  intros Hd Hc Hfuel. unfold settled, world_after.
  rewrite (processImage_png _ _ _ _ _ Hd Hc), png_branch_unfold. cbv zeta.
  change (canvas (loaded file img w)) with (canvas_at img 0).
  destruct (encode_canvas (canvas_at img 0) image_png JS.lit_1)
    as [first|] eqn:Hfirst; [|discriminate].
  set (w1 := record _ _).
  pose proof (png_loop_minimal img (kb * JS.lit_1024) fuel 0 first w1
                ltac:(lia) eq_refl Hfirst) as Hmin.
  change (scale_seq 0) with JS.lit_1 in Hmin.
  destruct (png_loop _ _ _ _ _ _ _) as [[[b scale]|e|] w']; cbn [fst snd] in *;
    try discriminate.
  intros [= <-]. cbn [blob].
  destruct (Hmin b scale eq_refl) as (k & Hk & Hcv & Hb & Hbetween).
  exists k. split; [lia|]. split; [exact Hcv|]. split; [exact Hb|].
  intros j Hj. apply Hbetween. lia.
Qed.

End Optimality.

Lemma lossy_result_is_best_witness :
  let b := Coarse.browser in
  let budget := Fake.one_KB * JS.lit_1024 in
  let enc := @encode_canvas b (@source_canvas b (64, 32)%Z) image_jpeg in
  is_png image_jpeg = false
  /\ @decode b Fake.photo = Some (64, 32)%Z
  /\ @context2d b = true
  /\ (forall q1 q2 b1 b2,
         (JS.lit_0 <=? q1) = true ->
         (q1 <=? q2) = true ->
         (q2 <=? JS.lit_1) = true ->
         enc q1 = Some b1 -> enc q2 = Some b2 ->
         (size b2 <=? budget) = true -> (size b1 <=? budget) = true)
  /\ settled (@processImage b 0 Fake.photo Fake.one_KB image_jpeg) Coarse.idle
     = Resolved {| blob := repeat Byte.x00 8;
                   finalSizeKB := JS.of_Z 8 / JS.lit_1024 |}
  /\ exists minQ maxQ,
       enc minQ = Some (repeat Byte.x00 8)
       /\ maxQ - minQ = two_to_minus_10
       /\ bracket (minQ, maxQ) = true
       /\ forall q over,
            (maxQ <=? q) = true -> (q <=? JS.lit_1) = true ->
            enc q = Some over -> (size over <=? budget) = false.
Proof.
  cbv zeta.
  assert (Henc : forall q,
             @encode_canvas Coarse.browser
               (@source_canvas Coarse.browser (64, 32)%Z) image_jpeg q
             = Some (repeat Byte.x00
                       (if q <=? JS.lit_0_1 then 8 else 2048)))
    by (intros q; reflexivity).
  assert (Hmono : forall q1 q2 b1 b2,
             (JS.lit_0 <=? q1) = true ->
             (q1 <=? q2) = true ->
             (q2 <=? JS.lit_1) = true ->
             @encode_canvas Coarse.browser
               (@source_canvas Coarse.browser (64, 32)%Z) image_jpeg q1
             = Some b1 ->
             @encode_canvas Coarse.browser
               (@source_canvas Coarse.browser (64, 32)%Z) image_jpeg q2
             = Some b2 ->
             (size b2 <=? Fake.one_KB * JS.lit_1024) = true ->
             (size b1 <=? Fake.one_KB * JS.lit_1024) = true).
  { intros q1 q2 b1 b2 _ H12 _ E1 E2 Hfit.
    rewrite Henc in E1, E2. injection E1 as <-. injection E2 as <-.
    destruct (q2 <=? JS.lit_0_1) eqn:Hq2.
    - rewrite (number_le_trans _ _ _ H12 Hq2). vm_compute. reflexivity.
    - vm_compute in Hfit. discriminate Hfit. }
  assert (E : settled (@processImage Coarse.browser 0 Fake.photo Fake.one_KB
                         image_jpeg) Coarse.idle
              = Resolved {| blob := repeat Byte.x00 8;
                            finalSizeKB := JS.of_Z 8 / JS.lit_1024 |})
    by (vm_compute; reflexivity).
  split; [reflexivity|]. split; [reflexivity|]. split; [reflexivity|].
  split; [exact Hmono|]. split; [exact E|].
  destruct (@lossy_result_is_best Coarse.browser 0 Fake.photo Fake.one_KB
              image_jpeg Coarse.idle (64, 32)%Z _
              eq_refl eq_refl eq_refl Hmono E)
    as (minQ & maxQ & H1 & H2 & H3 & [[_ Hmin]|Hbest]).
  - exfalso. subst minQ. rewrite Henc in H1.
    apply (f_equal (option_map (@length Byte.byte))) in H1.
    vm_compute in H1. discriminate H1.
  - exists minQ, maxQ. cbn [blob] in H1. auto.
Defined.

Lemma png_result_is_first_fit_witness :
  let b := Fake.browser 100 in
  let p := @processImage b 18 Fake.icon Fake.one_byte image_png in
  @decode b Fake.icon = Some (15, 15)%Z
  /\ @context2d b = true
  /\ (18 <= 18)%nat
  /\ match settled p (Fake.idle 100) with
     | Resolved r =>
         exists k,
           (k <= 18)%nat
           /\ @encode_canvas b (@canvas_at b (15, 15)%Z k) image_png JS.lit_1
              = Some (blob r)
     | _ => False
     end.
Proof.
  cbv zeta.
  split; [reflexivity|]. split; [reflexivity|]. split; [lia|].
  destruct (settled _ _) as [r|e|] eqn:E.
  - destruct (@png_result_is_first_fit (Fake.browser 100) 18 Fake.icon
                Fake.one_byte (Fake.idle 100) (15, 15)%Z r
                eq_refl eq_refl (le_n 18) E) as (k & Hk & _ & Hb & _).
    exists k. split; assumption.
  - vm_compute in E. discriminate E.
  - vm_compute in E. discriminate E.
Defined.
